(** * EKSInfraCDK: configuration resolver and pipeline assembler

    A shallow embedding of the logic-bearing parts of the repository:
    - [config/path_builder.py]   (class [PathBuilder]),
    - [config/config.py]         ([load_configurations]),
    - [app.py]                   (tenant / environment dispatch),
    - [pipelines/infra_pipeline.py] ([InfraPipelineStack.__init__]).

    Python values produced by [yaml.safe_load] are modelled by [pyval];
    Python exceptions by [exn]; a computation that may raise by [result]. *)

From Stdlib Require Import String Ascii List Bool ZArith Lia.
Import ListNotations.

Local Open Scope list_scope.
Local Open Scope string_scope.

(* ================================================================== *)
(** ** Python values, exceptions, results *)

Module Py.

(** The objects [yaml.safe_load] builds.  Mapping keys are strings: every
    lookup in the modelled code uses a [str] key, and a non-[str] YAML key
    never compares equal to one.  Floats and timestamps behave like [PInt]
    for everything the code does with them (truthiness, not a [str], not
    subscriptable by a [str]).  A mapping is an association list in
    insertion order; [dict_get] reads the first binding of a key. *)
#[warning="-register-all"]
Inductive pyval : Type :=
| PNone
| PBool (b : bool)
| PInt (z : Z)
| PStr (s : string)
| PList (l : list pyval)
| PDict (d : list (string * pyval)).

Inductive exn : Type :=
| KeyError (key : string)
| TypeError
| AttributeError
| ValueError (msg : string)
| YAMLError
| RuntimeError.

Inductive result (A : Type) : Type :=
| Ok (a : A)
| Raise (e : exn).

Arguments Ok {A} a.
Arguments Raise {A} e.

Definition bind {A B} (m : result A) (k : A -> result B) : result B :=
  match m with
  | Ok a => k a
  | Raise e => Raise e
  end.

Notation "x <- m ;; k" := (bind m (fun x => k))
  (at level 61, m at next level, right associativity).

(** [try: body except KeyError: handler] *)
Definition try_except_KeyError {A} (body : result A)
    (handler : string -> result A) : result A :=
  match body with
  | Raise (KeyError k) => handler k
  | other => other
  end.

(** Truth value of an object, as tested by [if x] and [not x]. *)
Definition truthy (v : pyval) : bool :=
  match v with
  | PNone => false
  | PBool b => b
  | PInt z => negb (Z.eqb z 0)
  | PStr s => negb (String.eqb s "")
  | PList l => match l with [] => false | _ => true end
  | PDict d => match d with [] => false | _ => true end
  end.

Definition isinstance_dict (v : pyval) : bool :=
  match v with PDict _ => true | _ => false end.

(** A [dict] with [str] keys, in insertion order. *)
Definition dict (V : Type) : Type := list (string * V).

Fixpoint dict_get {V} (d : dict V) (k : string) : option V :=
  match d with
  | [] => None
  | (k', v) :: d' => if String.eqb k' k then Some v else dict_get d' k
  end.

Definition dict_keys {V} (d : dict V) : list string := map fst d.

(** [k in d] *)
Definition dict_contains {V} (d : dict V) (k : string) : bool :=
  existsb (String.eqb k) (dict_keys d).

(** [d[k] = v]: an existing key keeps its position and takes the new
    value, a new key is appended. *)
Fixpoint dict_set {V} (d : dict V) (k : string) (v : V) : dict V :=
  match d with
  | [] => [(k, v)]
  | (k', v') :: d' =>
      if String.eqb k' k then (k', v) :: d' else (k', v') :: dict_set d' k v
  end.

(** [obj[key]] for a [str] key: a mapping raises [KeyError] on a missing
    key; a [str], list, number or [None] raises [TypeError]. *)
Definition getitem (obj : pyval) (key : string) : result pyval :=
  match obj with
  | PDict d =>
      match dict_get d key with
      | Some v => Ok v
      | None => Raise (KeyError key)
      end
  | _ => Raise TypeError
  end.

(** [sep.join(items)]: every item must be a [str]. *)
Fixpoint all_str (items : list pyval) : result (list string) :=
  match items with
  | [] => Ok []
  | PStr s :: rest => ss <- all_str rest ;; Ok (s :: ss)
  | _ :: _ => Raise TypeError
  end.

Definition str_join (sep : string) (items : list pyval) : result string :=
  ss <- all_str items ;; Ok (String.concat sep ss).

(** [s.split(c)] for a one-character separator. *)
Fixpoint split_on (c : ascii) (s : string) : list string :=
  match s with
  | EmptyString => [EmptyString]
  | String a s' =>
      if Ascii.eqb a c then EmptyString :: split_on c s'
      else match split_on c s' with
           | [] => [String a EmptyString]
           | h :: t => String a h :: t
           end
  end.

(** [s.startswith(p)] *)
Fixpoint startswith (s p : string) {struct p} : bool :=
  match p, s with
  | EmptyString, _ => true
  | String _ _, EmptyString => false
  | String c p', String d s' => Ascii.eqb c d && startswith s' p'
  end.

(** [t in s] for two strings. *)
Fixpoint str_contains (t s : string) : bool :=
  startswith s t
  || match s with
     | EmptyString => false
     | String _ s' => str_contains t s'
     end.

(** [s.endswith(suffix)] *)
Definition endswith (s suffix : string) : bool :=
  let n := String.length s in
  let m := String.length suffix in
  Nat.leb m n && String.eqb (String.substring (n - m) m s) suffix.

End Py.

Import Py.

(* ================================================================== *)
(** ** config/path_builder.py *)

Module PathBuilder.

Record t : Type := mk {
  tenant_id : string;
  environment : string;
  config : pyval
}.

(** [_param_global_base], a static method over its [keys] *)
Definition _param_global_base (keys : list pyval) : result string :=
  joined <- str_join "/" (filter truthy keys) ;;
  Ok ("/" ++ joined).

(** [_param_base]: the tenant comes first *)
Definition _param_base (self : t) (keys : list pyval) : result string :=
  joined <- str_join "/" (filter truthy (PStr (tenant_id self) :: keys)) ;;
  Ok ("/" ++ joined).

(** [_param_env_base]: the environment follows the tenant *)
Definition _param_env_base (self : t) (keys : list pyval) : result string :=
  _param_base self (PStr (environment self) :: keys).

(** The loop [for key in keys: path = path[key]]. *)
Fixpoint walk (path : pyval) (keys : list string) : result pyval :=
  match keys with
  | [] => Ok path
  | key :: rest => next <- getitem path key ;; walk next rest
  end.

Definition invalid_path_msg (keys : list string) : string :=
  "Invalid parameter path: " ++ String.concat "/" keys.

Definition found_dict_msg (keys : list string) : string :=
  invalid_path_msg keys ++ ", expected a string but found a dictionary".

(** [get_ssm_path], with [global_param] defaulting to [False] *)
Definition get_ssm_path (self : t) (keys : list string) (global_param : bool)
  : result string :=
  try_except_KeyError
    (path <- walk (config self) keys ;;
     if isinstance_dict path then Raise (ValueError (found_dict_msg keys))
     else if global_param then _param_global_base [path]
     else _param_env_base self [path])
    (fun _ => Raise (ValueError (invalid_path_msg keys))).

(** [get_ssm_path_all(self)] *)
Definition get_ssm_path_all (self : t) : result string :=
  _param_env_base self [PStr "*"].

(** *** Reading a resolved path *)

(** The text a resolved scalar contributes to the path: a [str] gives
    itself, any other falsy scalar is dropped like the empty string. *)
Definition segment_text (v : pyval) : string :=
  match v with
  | PStr s => s
  | _ => EmptyString
  end.

Definition nonempty (s : string) : bool := negb (String.eqb s "").

(** The components of an environment-scoped path that are kept. *)
Definition components (self : t) (seg : pyval) : list string :=
  filter nonempty [tenant_id self; environment self; segment_text seg].

Definition begins_with (p s : string) : Prop := exists rest, s = p ++ rest.

(** [x] is a segment of the path [s]. *)
Definition has_segment (x s : string) : Prop := In x (split_on "/" s).

(** A component that brings no empty segment of its own: it is not empty,
    has no double slash inside and no slash at either end. *)
Definition edge_clean (x : string) : bool :=
  negb (str_contains "//" ("/" ++ x ++ "/")).

(** Path scoping as the specification words it, for one builder and one
    key sequence: the environment-scoped form ... *)
Definition scoped_as_stated (self : t) (keys : list string) : Prop :=
  tenant_id self <> "" -> environment self <> "" ->
  forall s, get_ssm_path self keys false = Ok s ->
    begins_with ("/" ++ tenant_id self ++ "/" ++ environment self ++ "/") s.

(** ... and the global form. *)
Definition global_as_stated (self : t) (keys : list string) : Prop :=
  tenant_id self <> "" -> environment self <> "" ->
  forall s, get_ssm_path self keys true = Ok s ->
    begins_with "/" s
    /\ ~ has_segment (tenant_id self) s
    /\ ~ has_segment (environment self) s.

End PathBuilder.

(* ================================================================== *)
(** ** config/config.py *)

Module Config.

(** Index of the last occurrence of [c] in [s] ([s.rfind(c)]). *)
Fixpoint rfind (c : ascii) (s : string) : option nat :=
  match s with
  | EmptyString => None
  | String a s' =>
      match rfind c s' with
      | Some i => Some (S i)
      | None => if Ascii.eqb a c then Some 0 else None
      end
  end.

(** Are the first [n] characters of [s] all equal to [c]? *)
Fixpoint leading_all (c : ascii) (n : nat) (s : string) : bool :=
  match n, s with
  | 0, _ => true
  | S n', String a s' => Ascii.eqb a c && leading_all c n' s'
  | S _, EmptyString => true
  end.

(** [os.path.splitext(p)[0]] for a name without directory separator: the
    name is cut at its last dot, unless only dots precede that dot. *)
Definition splitext_root (p : string) : string :=
  match rfind "." p with
  | None => p
  | Some dotIndex =>
      if leading_all "." dotIndex p then p
      else String.substring 0 dotIndex p
  end.

(** An entry of the configuration directory: the name [os.listdir] yields
    and what [open] followed by [yaml.safe_load] gives for that file. *)
Definition dir_entry : Type := (string * result pyval)%type.

Definition is_yaml_name (filename : string) : bool :=
  endswith filename ".yaml" || endswith filename ".yml".

(** The body of [for filename in os.listdir(...)], threading the
    [configurations] dictionary. *)
Fixpoint load_loop (entries : list dir_entry) (configurations : dict pyval)
  : result (dict pyval) :=
  match entries with
  | [] => Ok configurations
  | (filename, content) :: rest =>
      if is_yaml_name filename then
        doc <- content ;;
        let key_name := splitext_root filename in
        load_loop rest (dict_set configurations key_name doc)
      else load_loop rest configurations
  end.

Definition load_configurations (directory : list dir_entry)
  : result (dict pyval) :=
  load_loop directory [].

(** *** Reading a loaded directory *)

(** The key a YAML-named file is stored under. *)
Definition stems (directory : list dir_entry) : list string :=
  map (fun e => splitext_root (fst e))
      (filter (fun e => is_yaml_name (fst e)) directory).

(** The document of the last listed YAML-named file whose name without
    extension is [k]. *)
Fixpoint last_doc (directory : list dir_entry) (k : string) : option pyval :=
  match directory with
  | [] => None
  | (filename, content) :: rest =>
      match last_doc rest k with
      | Some doc => Some doc
      | None =>
          if is_yaml_name filename && String.eqb (splitext_root filename) k
          then match content with
               | Ok doc => Some doc
               | Raise _ => None
               end
          else None
      end
  end.

(** The collision rule as the specification words it: a load that
    returns has kept the document of every YAML-named file under some
    key. *)
Definition keeps_every_document (directory : list dir_entry) : Prop :=
  forall loaded, load_configurations directory = Ok loaded ->
  forall filename doc,
    In (filename, Ok doc) directory ->
    is_yaml_name filename = true ->
    exists k, dict_get loaded k = Some doc.

(** [DEPLOYMENT_ENV] *)
Definition DEPLOYMENT_ACCOUNT_ID : string := "".
Definition DEPLOYMENT_REGION : string := "us-east-1".

End Config.

(* ================================================================== *)
(** ** app.py *)

Module App.

Import Config.

(** A context value read with [try_get_context]: [None] when the argument
    is not given, the string given on the command line otherwise. *)
Definition ctx : Type := option string.

Definition ctx_val (c : ctx) : pyval :=
  match c with
  | None => PNone
  | Some s => PStr s
  end.

(** [f"{c}"] *)
Definition ctx_str (c : ctx) : string :=
  match c with
  | None => "None"
  | Some s => s
  end.

Definition ctx_eq (c : ctx) (v : pyval) : bool :=
  match c, v with
  | None, PNone => true
  | Some s, PStr s' => String.eqb s s'
  | _, _ => false
  end.

(** [c in container] *)
Definition ctx_in (c : ctx) (container : pyval) : result bool :=
  match container with
  | PDict d =>
      match c with
      | Some s => Ok (dict_contains d s)
      | None => Ok false
      end
  | PList l => Ok (existsb (ctx_eq c) l)
  | PStr s =>
      match c with
      | Some t => Ok (str_contains t s)
      | None => Raise TypeError
      end
  | _ => Raise TypeError
  end.

(** [obj[c]] *)
Definition ctx_getitem (obj : pyval) (c : ctx) : result pyval :=
  match c with
  | Some s => getitem obj s
  | None =>
      match obj with
      | PDict _ => Raise (KeyError "None")
      | _ => Raise TypeError
      end
  end.

Definition render_pair (tenant env : string) : string :=
  "Tenant: " ++ tenant ++ ", Environment: " ++ env.

(** [obj.items()] and [obj.keys()] exist on mappings only. *)
Definition items (obj : pyval) : result (dict pyval) :=
  match obj with
  | PDict d => Ok d
  | _ => Raise AttributeError
  end.

Definition keys (obj : pyval) : result (list string) :=
  d <- items obj ;; Ok (dict_keys d).

(** The comprehension
    [[f"Tenant: {tenant}, Environment: {env}"
      for tenant, env_dict in environments.items()
      for env in env_dict.keys()]]. *)
Fixpoint valid_envs_of (tenants : dict pyval) : result (list string) :=
  match tenants with
  | [] => Ok []
  | (tenant, env_dict) :: rest =>
      envs <- keys env_dict ;;
      more <- valid_envs_of rest ;;
      Ok (map (render_pair tenant) envs ++ more)%list
  end.

Definition valid_envs (environments : pyval) : result (list string) :=
  tenants <- items environments ;; valid_envs_of tenants.

Definition invalid_arguments_msg (tenant_id target_env : ctx)
    (valid : list string) : string :=
  "Invalid arguments: " ++ ctx_str tenant_id ++ ", " ++ ctx_str target_env
  ++ ". " ++ "Valid arguments are: " ++ String.concat "; " valid.

Record ToolchainStackProps : Type := {
  tc_ecr_repositories : pyval;
  tc_organization_id : pyval;
  tc_project_tags : pyval
}.

(** The keyword arguments handed to [InfraPipelineStackProps], as read
    from the configuration documents. *)
Record InfraPipelineStackArgs : Type := {
  a_app_infra_configs : pyval;
  a_application_config : pyval;
  a_cluster_admin_role_name : pyval;
  a_code_connection_arn : pyval;
  a_deployment_branch_name : pyval;
  a_email_subscriptions : pyval;
  a_enable_manual_approval : pyval;
  a_github_owner : pyval;
  a_github_repo : pyval;
  a_hosted_zone_arn : pyval;
  a_hosted_zone_name : pyval;
  a_iam_identity_center_instance_arn : pyval;
  a_karpenter_version : pyval;
  a_kubernetes_version : pyval;
  a_path_builder : PathBuilder.t;
  a_products_purchased : pyval;
  a_project_tags : pyval;
  a_resource_prefix : string;
  a_target_account : pyval * pyval;
  a_target_env : string;
  a_tenant_id : string
}.

(** The construct the driver asks for before [app.synth()], with the
    arguments it passes.  The constructors themselves, which may still
    raise, are modelled in [Pipeline] and [Toolchain]. *)
Inductive built : Type :=
| ToolchainStack (construct_id : string) (props : ToolchainStackProps)
| InfraPipelineStack (construct_id : string) (props : InfraPipelineStackArgs).

(** The values read at the top of the module, before the dispatch. *)
Record settings : Type := {
  ecr_repositories : pyval;
  environments : pyval;
  infra_config : pyval;
  deploy_config : pyval;
  app_infra_configs : pyval;
  code_connection_arn : pyval;
  deployment_branch_name : pyval;
  github_owner : pyval;
  github_repo : pyval;
  kubernetes_version : pyval;
  karpenter_version : pyval;
  project_tags : pyval
}.

Definition read_settings (directory : list dir_entry) : result settings :=
  c1 <- load_configurations directory ;;
  ecr_repositories <- getitem (PDict c1) "ecr_repositories" ;;
  c2 <- load_configurations directory ;;
  environments <- getitem (PDict c2) "environments" ;;
  c3 <- load_configurations directory ;;
  infra_config <- getitem (PDict c3) "config" ;;
  deploy_config <- getitem infra_config "deployment" ;;
  app_infra_configs <- getitem infra_config "applications" ;;
  code_connection_arn <- getitem deploy_config "code_connection_arn" ;;
  deployment_branch_name <- getitem deploy_config "deployment_branch_name" ;;
  github_owner <- getitem deploy_config "github_owner" ;;
  github_repo <- getitem deploy_config "github_repo" ;;
  kubernetes_version <- getitem deploy_config "kubernetes_version" ;;
  karpenter_version <- getitem deploy_config "karpenter_version" ;;
  project_tags <- getitem deploy_config "project_tags" ;;
  Ok {| ecr_repositories := ecr_repositories;
        environments := environments;
        infra_config := infra_config;
        deploy_config := deploy_config;
        app_infra_configs := app_infra_configs;
        code_connection_arn := code_connection_arn;
        deployment_branch_name := deployment_branch_name;
        github_owner := github_owner;
        github_repo := github_repo;
        kubernetes_version := kubernetes_version;
        karpenter_version := karpenter_version;
        project_tags := project_tags |}.

(** [tenant_id in environments and target_env in environments[tenant_id]] *)
Definition valid_pair (environments : pyval) (tenant_id target_env : ctx)
  : result bool :=
  known <- ctx_in tenant_id environments ;;
  if known then
    env_dict <- ctx_getitem environments tenant_id ;;
    ctx_in target_env env_dict
  else Ok false.

(** The branch that builds the toolchain stack. *)
Definition toolchain_branch (s : settings) : result built :=
  organization_id <- getitem (infra_config s) "organization_id" ;;
  Ok (ToolchainStack "infra-toolchain"
        {| tc_ecr_repositories := ecr_repositories s;
           tc_organization_id := organization_id;
           tc_project_tags := project_tags s |}).

(** The branch that builds the tenant pipeline. *)
Definition tenant_branch (s : settings) (ssm_paths : result pyval)
    (tenant_id target_env : ctx) : result built :=
  let resource_prefix := ctx_str tenant_id ++ "-" ++ ctx_str target_env in
  env_dict <- ctx_getitem (environments s) tenant_id ;;
  tenant_config <- ctx_getitem env_dict target_env ;;
  application_config <- getitem tenant_config "applications" ;;
  account <- getitem tenant_config "account" ;;
  region <- getitem tenant_config "region" ;;
  spec <- ssm_paths ;;
  let path_builder :=
    PathBuilder.mk (ctx_str tenant_id) (ctx_str target_env) spec in
  cluster_admin_role_name <- getitem tenant_config "cluster_admin_role_name" ;;
  email_subscriptions <- getitem (infra_config s) "email_subscriptions" ;;
  enable_manual_approval <- getitem tenant_config "enable_manual_approval" ;;
  hosted_zone_arn <- getitem (deploy_config s) "hosted_zone_arn" ;;
  hosted_zone_name <- getitem (deploy_config s) "hosted_zone_name" ;;
  iam_identity_center_instance_arn <-
    getitem (infra_config s) "iam_identity_center_instance_arn" ;;
  products_purchased <- getitem tenant_config "products_purchased" ;;
  Ok (InfraPipelineStack (resource_prefix ++ "-infra-pipeline")
        {| a_app_infra_configs := app_infra_configs s;
           a_application_config := application_config;
           a_cluster_admin_role_name := cluster_admin_role_name;
           a_code_connection_arn := code_connection_arn s;
           a_deployment_branch_name := deployment_branch_name s;
           a_email_subscriptions := email_subscriptions;
           a_enable_manual_approval := enable_manual_approval;
           a_github_owner := github_owner s;
           a_github_repo := github_repo s;
           a_hosted_zone_arn := hosted_zone_arn;
           a_hosted_zone_name := hosted_zone_name;
           a_iam_identity_center_instance_arn :=
             iam_identity_center_instance_arn;
           a_karpenter_version := karpenter_version s;
           a_kubernetes_version := kubernetes_version s;
           a_path_builder := path_builder;
           a_products_purchased := products_purchased;
           a_project_tags := project_tags s;
           a_resource_prefix := resource_prefix;
           a_target_account := (account, region);
           a_target_env := ctx_str target_env;
           a_tenant_id := ctx_str tenant_id |}).

(** The [if not tenant_id: ... elif ...: ... else: ...] statement. *)
Definition dispatch (s : settings) (ssm_paths : result pyval)
    (tenant_id target_env : ctx) : result built :=
  if negb (truthy (ctx_val tenant_id)) then toolchain_branch s
  else
    valid <- valid_pair (environments s) tenant_id target_env ;;
    if valid then tenant_branch s ssm_paths tenant_id target_env
    else
      valid_envs <- valid_envs (environments s) ;;
      Raise (ValueError (invalid_arguments_msg tenant_id target_env valid_envs)).

(** The whole script up to [app.synth()]: [directory] is the content of
    the [config] directory, [ssm_paths] the result of loading
    [config/ssm_paths.yaml]. *)
Definition main (directory : list dir_entry) (ssm_paths : result pyval)
    (tenant_id target_env : ctx) : result built :=
  s <- read_settings directory ;;
  dispatch s ssm_paths tenant_id target_env.

(** *** Reading the environments tree *)




End App.

(* ================================================================== *)
(** ** pipelines/infra_pipeline.py *)

Module Pipeline.

(** [aws_cdk.Environment] *)
Record Environment : Type := {
  account : string;
  region : string
}.

Record InfraPipelineStackProps : Type := {
  app_infra_configs : pyval;
  application_config : pyval;
  cluster_admin_role_name : string;
  code_connection_arn : string;
  deployment_branch_name : string;
  deployment_env : Environment;
  email_subscriptions : list string;
  enable_manual_approval : bool;
  github_owner : string;
  github_repo : string;
  hosted_zone_arn : string;
  hosted_zone_name : string;
  iam_identity_center_instance_arn : string;
  karpenter_version : string;
  kubernetes_version : string;
  path_builder : PathBuilder.t;
  products_purchased : pyval;
  project_tags : dict string;
  resource_prefix : string;
  target_account : Environment;
  target_env : string;
  tenant_id : string
}.

(** *** The constructs the stack creates

    The provisioning framework is a collaborator: its objects are kept as
    records of what the stack passes to them.  The stacks inside a stage
    are not part of this model; a stage is its class and construct id.
    The constructors of the stages, and whatever they raise, are thus
    outside it: what is proved of a produced pipeline is proved on
    condition that the constructor returns. *)

Inductive stage_class : Type := NetworkStage | InfraStage | PostDeployStage.

Record stage : Type := {
  stage_cls : stage_class;
  stage_name : string
}.

Inductive step : Type :=
| CodeBuildStep (id project_name : string) (commands : list string)
    (env : dict string) (role : string)
| ManualApprovalStep (id comment : string).

Record wave : Type := {
  wave_id : string;
  wave_stages : list stage;
  wave_pre : list step;
  wave_post : list step
}.

Record topic : Type := {
  topic_name : string;
  display_name : string;
  subscriptions : list string
}.

Record notification_rule : Type := {
  rule_name : string;
  events : list string;
  targets : list nat;
  source : string
}.

(** The state of the stack under construction.  Waves and topics are
    shared objects: [add_wave] and [new_topic] return a handle (the
    position in the list) and later calls update the object in place. *)
Record stack : Type := {
  roles : list string;
  pipeline_name : string;
  synth_env : dict string;
  waves : list wave;
  built : bool;
  topics : list topic;
  rules : list notification_rule
}.

Definition M (A : Type) : Type := stack -> result (A * stack).

Definition ret {A} (a : A) : M A := fun st => Ok (a, st).

Definition mbind {A B} (m : M A) (k : A -> M B) : M B :=
  fun st => match m st with
            | Ok (a, st') => k a st'
            | Raise e => Raise e
            end.

Definition lift {A} (r : result A) : M A :=
  fun st => match r with
            | Ok a => Ok (a, st)
            | Raise e => Raise e
            end.

Notation "x <~ m ;; k" := (mbind m (fun x => k))
  (at level 61, m at next level, right associativity).
Notation "m ;;; k" := (mbind m (fun _ => k))
  (at level 61, right associativity).

Definition set_waves (ws : list wave) (st : stack) : stack :=
  {| roles := roles st; pipeline_name := pipeline_name st;
     synth_env := synth_env st; waves := ws; built := built st;
     topics := topics st; rules := rules st |}.

Definition set_topics (ts : list topic) (st : stack) : stack :=
  {| roles := roles st; pipeline_name := pipeline_name st;
     synth_env := synth_env st; waves := waves st; built := built st;
     topics := ts; rules := rules st |}.

(** Update of the object behind a handle. *)
Fixpoint update_at {A} (n : nat) (f : A -> A) (l : list A) : list A :=
  match n, l with
  | _, [] => []
  | 0, x :: l' => f x :: l'
  | S n', x :: l' => x :: update_at n' f l'
  end.

(** [iam.Role(self, "CodeBuildRole", role_name=...)] *)
Definition new_role (role_name : string) : M string :=
  fun st =>
    Ok (role_name,
        {| roles := (roles st ++ [role_name])%list;
           pipeline_name := pipeline_name st; synth_env := synth_env st;
           waves := waves st; built := built st;
           topics := topics st; rules := rules st |}).

(** [pipelines.CodePipeline(self, "infra-pipeline", ...)] *)
Definition new_pipeline (name : string) (env : dict string) : M unit :=
  fun st =>
    Ok (tt,
        {| roles := roles st; pipeline_name := name; synth_env := env;
           waves := []; built := false;
           topics := topics st; rules := rules st |}).

(** [pipeline.add_wave(id)]: a new, empty wave at the end of the pipeline;
    refused once the pipeline is built. *)
Definition empty_wave (id : string) : wave :=
  {| wave_id := id; wave_stages := []; wave_pre := []; wave_post := [] |}.

Definition add_wave (id : string) : M nat :=
  fun st =>
    if built st then Raise RuntimeError
    else
      Ok (List.length (waves st),
          set_waves (waves st ++ [empty_wave id])%list st).

Definition wave_add_stage (s : stage) (w : wave) : wave :=
  {| wave_id := wave_id w; wave_stages := (wave_stages w ++ [s])%list;
     wave_pre := wave_pre w; wave_post := wave_post w |}.

Definition wave_add_pre (s : step) (w : wave) : wave :=
  {| wave_id := wave_id w; wave_stages := wave_stages w;
     wave_pre := (wave_pre w ++ [s])%list; wave_post := wave_post w |}.

Definition wave_add_post (s : step) (w : wave) : wave :=
  {| wave_id := wave_id w; wave_stages := wave_stages w;
     wave_pre := wave_pre w; wave_post := (wave_post w ++ [s])%list |}.

(** [pipeline.add_stage(stage)]: a wave of its own, named after the
    stage, holding that stage. *)
Definition add_stage (s : stage) : M unit :=
  h <~ add_wave (stage_name s) ;;
  fun st => Ok (tt, set_waves (update_at h (wave_add_stage s) (waves st)) st).

(** [wave.add_pre(step)] and [wave.add_post(step)] on the wave behind [h]. *)
Definition add_pre (h : nat) (s : step) : M unit :=
  fun st => Ok (tt, set_waves (update_at h (wave_add_pre s) (waves st)) st).

Definition add_post (h : nat) (s : step) : M unit :=
  fun st => Ok (tt, set_waves (update_at h (wave_add_post s) (waves st)) st).

(** [pipeline.build_pipeline()] *)
Definition build_pipeline : M unit :=
  fun st =>
    if built st then Raise RuntimeError
    else
      Ok (tt,
          {| roles := roles st; pipeline_name := pipeline_name st;
             synth_env := synth_env st; waves := waves st; built := true;
             topics := topics st; rules := rules st |}).

(** [sns.Topic(self, "EKSClusterApprovalTopic", ...)] *)
Definition new_topic (display topic_nm : string) : M nat :=
  fun st =>
    let t := {| topic_name := topic_nm; display_name := display;
                subscriptions := [] |} in
    Ok (List.length (topics st), set_topics (topics st ++ [t])%list st).

Definition topic_subscribe (address : string) (t : topic) : topic :=
  {| topic_name := topic_name t; display_name := display_name t;
     subscriptions := (subscriptions t ++ [address])%list |}.

(** [topic.add_subscription(subscriptions.EmailSubscription(address))] *)
Definition add_subscription (h : nat) (address : string) : M unit :=
  fun st =>
    Ok (tt, set_topics (update_at h (topic_subscribe address) (topics st)) st).

(** [for subscription in props.email_subscriptions: ...] *)
Fixpoint subscribe_all (h : nat) (addresses : list string) : M unit :=
  match addresses with
  | [] => ret tt
  | a :: rest => add_subscription h a ;;; subscribe_all h rest
  end.

(** [notifications.NotificationRule(self, "notification-rule", ...)] *)
Definition new_notification_rule (evs : list string) (tgts : list nat)
    (name : string) : M unit :=
  fun st =>
    let r := {| rule_name := name; events := evs; targets := tgts;
                source := pipeline_name st |} in
    Ok (tt,
        {| roles := roles st; pipeline_name := pipeline_name st;
           synth_env := synth_env st; waves := waves st; built := built st;
           topics := topics st; rules := (rules st ++ [r])%list |}).

(** [props.project_tags["map-migrated"]] and the like. *)
Definition tag (tags : dict string) (key : string) : result string :=
  match dict_get tags key with
  | Some v => Ok v
  | None => Raise (KeyError key)
  end.

Definition empty_stack : stack :=
  {| roles := []; pipeline_name := ""; synth_env := []; waves := [];
     built := false; topics := []; rules := [] |}.

Definition notification_events : list string :=
  [ "codepipeline-pipeline-pipeline-execution-started";
    "codepipeline-pipeline-pipeline-execution-failed";
    "codepipeline-pipeline-pipeline-execution-succeeded";
    "codepipeline-pipeline-manual-approval-needed" ].

Section Init.

Variable props : InfraPipelineStackProps.

Let prefix : string := resource_prefix props.

(** The nested helper [build_role_arn(account, role_name)]. *)
Definition build_role_arn (acct role_name : string) : string :=
  "arn:aws:iam::" ++ acct ++ ":role/" ++ prefix ++ "-" ++ role_name.

Definition cluster_access_role_arn : string :=
  build_role_arn (account (target_account props)) "eksctl-codebuild-role".

Definition external_dns_role_arn : string :=
  build_role_arn (account (deployment_env props)) "externaldns-role".

Definition external_dns_sa_role_arn : string :=
  build_role_arn (account (target_account props)) "externaldns-sa-role".

Definition external_secrets_sa_role_arn : string :=
  build_role_arn (account (target_account props)) "secrets-manager-sa-role".

Definition get_path (keys : list string) : M string :=
  lift (PathBuilder.get_ssm_path (path_builder props) keys false).

Definition network_stage : stage :=
  {| stage_cls := NetworkStage; stage_name := prefix ++ "-network" |}.

Definition infra_stage : stage :=
  {| stage_cls := InfraStage; stage_name := prefix ++ "-infra" |}.

Definition post_deploy_stage : stage :=
  {| stage_cls := PostDeployStage; stage_name := prefix ++ "-post-deploy" |}.

(** The [pipelines.CodeBuildStep("deploy-eks-cluster-step", ...)] object,
    given the two values its [env] reads. *)
Definition deploy_eks_cluster_step (codebuild_role map_migrated
    oidc_id_param : string) : step :=
  CodeBuildStep "deploy-eks-cluster-step" (prefix ++ "-deploy-eks-cluster")
    [ "cd scripts/cluster_config";
      "chmod +x deploy_eks_cluster.sh";
      "./deploy_eks_cluster.sh" ]
    [ ("AWS_REGION", region (target_account props));
      ("CLUSTER_ACCESS_ROLE_ARN", cluster_access_role_arn);
      ("CLUSTER_ADMIN_ROLE_NAME", cluster_admin_role_name props);
      ("CLUSTER_NAME", prefix ++ "-cluster");
      ("CODE_BUILD_ROLE_NAME", prefix ++ "-eksctl-codebuild-role");
      ("KARPENTER_VERSION", karpenter_version props);
      ("KUBERNETES_VERSION", kubernetes_version props);
      ("MAP_MIGRATED", map_migrated);
      ("OIDC_ID_PARAM", oidc_id_param);
      ("RESOURCE_PREFIX", prefix);
      ("TARGET_ACCOUNT_ID", account (target_account props)) ]
    codebuild_role.

(** [pipelines.CodeBuildStep("config-eks-cluster-step", ...)] *)
Definition config_eks_cluster_step (codebuild_role acm_certificate_arn
    efs_file_system_param : string) : step :=
  CodeBuildStep "config-eks-cluster-step" (prefix ++ "-config-eks-cluster")
    [ "cd scripts/cluster_config";
      "chmod +x config_eks_cluster.sh";
      "./config_eks_cluster.sh" ]
    [ ("ACM_CERTIFICATE_ARN", acm_certificate_arn);
      ("AWS_REGION", region (target_account props));
      ("CLUSTER_ACCESS_ROLE_ARN", cluster_access_role_arn);
      ("CLUSTER_NAME", prefix ++ "-cluster");
      ("EFS_FILE_SYSTEM_PARAM", efs_file_system_param);
      ("EXTERNAL_DNS_ROLE", external_dns_role_arn);
      ("EXTERNAL_DNS_SA_ROLE", external_dns_sa_role_arn);
      ("EXTERNAL_SECRETS_SA_ROLE", external_secrets_sa_role_arn);
      ("KARPENTER_VERSION", karpenter_version props);
      ("KUBERNETES_VERSION", kubernetes_version props);
      ("RESOURCE_PREFIX", prefix);
      ("TARGET_ACCOUNT_ID", account (target_account props)) ]
    codebuild_role.

(** [pipelines.ManualApprovalStep("eks-cluster-approval-step", ...)] *)
Definition approval_step : step :=
  ManualApprovalStep "eks-cluster-approval-step" "Approve?".

(** [pipelines.CodeBuildStep("deploy-apps-into-cluster-step", ...)] *)
Definition deploy_apps_into_cluster_step (codebuild_role
    acm_certificate_arn : string) : step :=
  CodeBuildStep "deploy-apps-into-cluster-step"
    (prefix ++ "-deploy-apps-into-cluster")
    [ "cd scripts/cluster_config";
      "chmod +x deploy_apps_into_cluster.sh";
      "./deploy_apps_into_cluster.sh" ]
    [ ("ACM_CERTIFICATE_ARN", acm_certificate_arn);
      ("AWS_REGION", region (target_account props));
      ("CLUSTER_ACCESS_ROLE_ARN", cluster_access_role_arn);
      ("CLUSTER_NAME", prefix ++ "-cluster");
      ("RESOURCE_PREFIX", prefix);
      ("TARGET_ACCOUNT_ID", account (target_account props)) ]
    codebuild_role.

(** "Add wave for deploying EKS cluster": the wave is added first, then
    the [env] dictionary of the step is evaluated in source order. *)
Definition add_deploy_eks_cluster_wave (codebuild_role : string) : M unit :=
  deploy_eks_cluster <~ add_wave "deploy-eks-cluster-wave" ;;
  map_migrated <~ lift (tag (project_tags props) "map-migrated") ;;
  oidc_id_param <~ get_path ["eks"; "oidc-id"] ;;
  add_post deploy_eks_cluster
    (deploy_eks_cluster_step codebuild_role map_migrated oidc_id_param).

(** "Add wave for configuring EKS cluster" *)
Definition add_config_eks_cluster_wave (codebuild_role : string) : M unit :=
  config_eks_cluster <~ add_wave "config-eks-cluster-wave" ;;
  acm_certificate_arn <~ get_path ["acm"; "certificate-arn"] ;;
  efs_file_system_param <~ get_path ["efs"; "file-system-id"] ;;
  add_post config_eks_cluster
    (config_eks_cluster_step codebuild_role acm_certificate_arn
       efs_file_system_param).

(** The first [if props.enable_manual_approval:] *)
Definition add_approval_wave : M unit :=
  if enable_manual_approval props then
    approval_stage <~ add_wave "eks-cluster-approval-wave" ;;
    add_pre approval_stage approval_step
  else ret tt.

(** "Add wave for deploying apps into EKS cluster" *)
Definition add_deploy_apps_wave (codebuild_role : string) : M unit :=
  deploy_apps_into_cluster <~ add_wave "deploy-apps-into-cluster-wave" ;;
  acm_certificate_arn <~ get_path ["acm"; "certificate-arn"] ;;
  add_post deploy_apps_into_cluster
    (deploy_apps_into_cluster_step codebuild_role acm_certificate_arn).

(** The second [if props.enable_manual_approval:] *)
Definition add_notifications : M unit :=
  if enable_manual_approval props then
    build_pipeline ;;;
    approval_topic <~ new_topic (prefix ++ "-eks-cluster-approval")
                                (prefix ++ "-eks-cluster-approval") ;;
    subscribe_all approval_topic (email_subscriptions props) ;;;
    new_notification_rule notification_events [approval_topic]
      (prefix ++ "-notification-rule")
  else ret tt.

(** [InfraPipelineStack.__init__], block by block in source order. *)
Definition init : M unit :=
  codebuild_role <~ new_role (prefix ++ "-codebuild-role") ;;
  new_pipeline (prefix ++ "-infra-pipeline")
    [("tenant_id", tenant_id props); ("target_env", target_env props)] ;;;
  add_stage network_stage ;;;
  add_stage infra_stage ;;;
  add_deploy_eks_cluster_wave codebuild_role ;;;
  add_stage post_deploy_stage ;;;
  add_config_eks_cluster_wave codebuild_role ;;;
  add_approval_wave ;;;
  add_deploy_apps_wave codebuild_role ;;;
  add_notifications.

End Init.

(** The stack a call [InfraPipelineStack(app, id, props=props)] leaves. *)
Definition InfraPipelineStack (props : InfraPipelineStackProps)
  : result stack :=
  match init props empty_stack with
  | Ok (_, st) => Ok st
  | Raise e => Raise e
  end.

(** *** Reading a produced pipeline *)

Definition is_manual_approval (s : step) : bool :=
  match s with
  | ManualApprovalStep _ _ => true
  | CodeBuildStep _ _ _ _ _ => false
  end.

Definition stage_class_eqb (a b : stage_class) : bool :=
  match a, b with
  | NetworkStage, NetworkStage => true
  | InfraStage, InfraStage => true
  | PostDeployStage, PostDeployStage => true
  | _, _ => false
  end.

(** The wave that [add_stage] made for a stage of class [c]. *)
Definition holds_stage (c : stage_class) (w : wave) : bool :=
  existsb (fun s => stage_class_eqb (stage_cls s) c) (wave_stages w).

(** A wave added with [add_wave] under the name [id] (it holds no stage). *)
Definition named_wave (id : string) (w : wave) : bool :=
  match wave_stages w with
  | [] => String.eqb (wave_id w) id
  | _ :: _ => false
  end.

(** The approval gate: a wave that a manual-approval step precedes. *)
Definition is_gate (w : wave) : bool := existsb is_manual_approval (wave_pre w).

(** Position of the first element satisfying [p]. *)
Fixpoint index_where {A} (p : A -> bool) (l : list A) : option nat :=
  match l with
  | [] => None
  | x :: l' =>
      if p x then Some 0
      else match index_where p l' with
           | Some i => Some (S i)
           | None => None
           end
  end.

Definition count_where {A} (p : A -> bool) (l : list A) : nat :=
  List.length (filter p l).

(** The wave [add_stage] makes for a stage. *)
Definition stage_wave (s : stage) : wave :=
  wave_add_stage s (empty_wave (stage_name s)).

(** A wave with one step after it, and one with one step before it. *)
Definition post_wave (id : string) (s : step) : wave :=
  wave_add_post s (empty_wave id).

Definition pre_wave (id : string) (s : step) : wave :=
  wave_add_pre s (empty_wave id).

(** [st'] is [st] with the waves [ws] added at the end of the pipeline and
    nothing else changed. *)
Definition extends (st st' : stack) (ws : list wave) : Prop :=
  waves st' = (waves st ++ ws)%list
  /\ built st' = built st
  /\ topics st' = topics st
  /\ rules st' = rules st.

(** The topic after the addresses were subscribed in order. *)
Definition subscribed (addresses : list string) (t : topic) : topic :=
  fold_left (fun t a => topic_subscribe a t) addresses t.

Definition wave_steps (w : wave) : list step := (wave_pre w ++ wave_post w)%list.

(** Number of manual-approval steps anywhere in the pipeline. *)
Definition approval_gates (st : stack) : nat :=
  count_where is_manual_approval (flat_map wave_steps (waves st)).

End Pipeline.

(* ================================================================== *)
(** ** stacks/toolchain_stack.py *)

Module Toolchain.

Record ToolchainStackProps : Type := {
  ecr_repositories : dict (list string);
  organization_id : string;
  project_tags : dict string
}.

(** [iam.PolicyStatement]: effect [ALLOW] for any principal, under the
    condition ["ForAnyValue:StringLike": {"aws:PrincipalOrgPaths": ...}]. *)
Record policy_statement : Type := {
  sid : string;
  actions : list string;
  principal_org_paths : string
}.

(** [ecr.Repository] *)
Record repository : Type := {
  construct_id : string;
  repository_name : string;
  image_scan_on_push : bool;
  resource_policy : list policy_statement
}.

Definition new_repository (id name : string) : repository :=
  {| construct_id := id; repository_name := name;
     image_scan_on_push := true; resource_policy := [] |}.

(** [repo.add_to_resource_policy(statement)] *)
Definition add_to_resource_policy (p : policy_statement) (r : repository)
  : repository :=
  {| construct_id := construct_id r; repository_name := repository_name r;
     image_scan_on_push := image_scan_on_push r;
     resource_policy := (resource_policy r ++ [p])%list |}.

Definition organization_pull (organization : string) : policy_statement :=
  {| sid := "organization-pull";
     actions := [ "ecr:BatchCheckLayerAvailability";
                  "ecr:BatchGetImage";
                  "ecr:DescribeImages";
                  "ecr:DescribeRepositories";
                  "ecr:GetDownloadUrlForLayer";
                  "ecr:ListImages" ];
     principal_org_paths := organization ++ "/*" |}.

(** The body of the inner loop, for one repository of one namespace. *)
Definition make_repository (props : ToolchainStackProps)
    (namespace repo : string) : repository :=
  let construct_id_for_repo := namespace ++ "-" ++ repo in
  let repository_name := namespace ++ "/" ++ repo in
  add_to_resource_policy (organization_pull (organization_id props))
    (new_repository construct_id_for_repo repository_name).

(** [for repo in repositories] *)
Fixpoint inner_loop (props : ToolchainStackProps) (namespace : string)
    (repositories : list string) (stack : list repository)
  : list repository :=
  match repositories with
  | [] => stack
  | repo :: rest =>
      inner_loop props namespace rest
        (stack ++ [make_repository props namespace repo])%list
  end.

(** [for namespace, repositories in props.ecr_repositories.items()] *)
Fixpoint outer_loop (props : ToolchainStackProps)
    (items : dict (list string)) (stack : list repository)
  : list repository :=
  match items with
  | [] => stack
  | (namespace, repositories) :: rest =>
      outer_loop props rest (inner_loop props namespace repositories stack)
  end.

(** The repositories the two loops ask for, in creation order: what the
    stack holds once every [ecr.Repository] call has been accepted. *)
Definition init (props : ToolchainStackProps) : list repository :=
  outer_loop props (ecr_repositories props) [].

Section Framework.

(** [ecr.Repository(self, id=..., repository_name=...,
    image_scan_on_push=True)] called in a scope that holds [scope]: the
    framework either returns the repository or refuses the call. *)
Variable ecr_Repository :
  list repository -> string -> string -> result repository.

(** [for repo in repositories], each repository being created first and
    given its policy next. *)
Fixpoint inner_loop_in (props : ToolchainStackProps) (namespace : string)
    (repositories : list string) (stack : list repository)
  : result (list repository) :=
  match repositories with
  | [] => Ok stack
  | repo :: rest =>
      let construct_id_for_repo := namespace ++ "-" ++ repo in
      let repository_name := namespace ++ "/" ++ repo in
      created <- ecr_Repository stack construct_id_for_repo repository_name ;;
      inner_loop_in props namespace rest
        (stack
         ++ [add_to_resource_policy
               (organization_pull (organization_id props)) created])%list
  end.

(** [for namespace, repositories in props.ecr_repositories.items()] *)
Fixpoint outer_loop_in (props : ToolchainStackProps)
    (items : dict (list string)) (stack : list repository)
  : result (list repository) :=
  match items with
  | [] => Ok stack
  | (namespace, repositories) :: rest =>
      stack' <- inner_loop_in props namespace repositories stack ;;
      outer_loop_in props rest stack'
  end.

(** [ToolchainStack.__init__]: the repositories of the stack when the
    constructor returns. *)
Definition ToolchainStack (props : ToolchainStackProps)
  : result (list repository) :=
  outer_loop_in props (ecr_repositories props) [].

End Framework.

(** The (namespace, repository) entries of the configuration, in order. *)
Definition entries (items : dict (list string)) : list (string * string) :=
  flat_map (fun item => map (pair (fst item)) (snd item)) items.

End Toolchain.

(* ================================================================== *)
(** ** lambdas/db_initializer/lambda_function.py *)

Module DbInitializer.

(** The double-quote character. *)
Definition quote : ascii := "034"%char.

(** [s.split(sep)] for a non-empty separator: the text is scanned from
    the left and cut at each occurrence; [skip] counts the characters of
    a separator still to be passed over. *)
Definition cons_head (c : ascii) (pieces : list string) : list string :=
  match pieces with
  | [] => [String c EmptyString]
  | h :: t => String c h :: t
  end.

Fixpoint split_go (sep s : string) (skip : nat) : list string :=
  match s with
  | EmptyString => [EmptyString]
  | String c s' =>
      match skip with
      | S k => split_go sep s' k
      | 0 =>
          if startswith s sep
          then EmptyString :: split_go sep s' (String.length sep - 1)
          else cons_head c (split_go sep s' 0)
      end
  end.

Definition split (sep s : string) : list string := split_go sep s 0.

(** What follows [p] in [s], when [s] starts with [p]. *)
Fixpoint strip_prefix (p s : string) : option string :=
  match p, s with
  | EmptyString, _ => Some s
  | String _ _, EmptyString => None
  | String c p', String d s' =>
      if Ascii.eqb c d then strip_prefix p' s' else None
  end.

(** The longest run of characters other than the double quote at the
    head of [s], and what follows it. *)
Fixpoint span_unquoted (s : string) : string * string :=
  match s with
  | EmptyString => (EmptyString, EmptyString)
  | String c s' =>
      if Ascii.eqb c quote then (EmptyString, s)
      else let (name, rest) := span_unquoted s' in (String c name, rest)
  end.

(** The literal head of the pattern, [CREATE DATABASE] followed by a
    space and a double quote. *)
Definition pattern_head : string := "CREATE DATABASE " ++ String quote "".

(** A match of the pattern at the very start of [s]: the literal head,
    one or more characters other than the double quote, a double quote.
    The group is the run of characters. *)
Definition match_here (s : string) : option string :=
  match strip_prefix pattern_head s with
  | None => None
  | Some rest =>
      let (name, tail) := span_unquoted rest in
      match name, tail with
      | String _ _, String _ _ => Some name
      | _, _ => None
      end
  end.

(** [re.search(pattern, s)], giving [match.group(1)]: the leftmost
    position where the pattern matches. *)
Fixpoint search (s : string) : option string :=
  match match_here s with
  | Some name => Some name
  | None =>
      match s with
      | EmptyString => None
      | String _ s' => search s'
      end
  end.

(** The loop over the statements. *)
Fixpoint collect (statements : list string) (databases : list string)
  : list string :=
  match statements with
  | [] => databases
  | statement :: rest =>
      if str_contains "CREATE DATABASE" statement then
        match search statement with
        | Some name => collect rest (databases ++ [name])%list
        | None => collect rest databases
        end
      else collect rest databases
  end.

(** [parse_db_config_sql]: [file] is what opening and reading the file
    gives; an exception is printed and raised again. *)
Definition parse_db_config_sql (file : result string) : result (list string) :=
  match file with
  | Ok sql_content => Ok (collect (split "SELECT" sql_content) [])
  | Raise e => Raise e
  end.

(** *** The handler

    The secrets store, the database server and the file system are
    collaborators; the handler is modelled over their operations. *)

Record response : Type := {
  statusCode : nat;
  body : string
}.

Section Handler.

(** A connection to the server with its state. *)
Variable pg : Type.

(** [os.environ] *)
Variable environ : dict string.

(** [client.get_secret_value(SecretId=...)["SecretString"]] parsed by
    [json.loads], for a region and a secret name. *)
Variable get_secret : string -> string -> result pyval.

(** [psycopg2.connect(user=..., password=..., host=...,
    database="postgres")] *)
Variable connect : pyval -> pyval -> pyval -> result pg.

(** Reading the script that sits beside the handler. *)
Variable read_script : string -> result string.

(** [SELECT 1 FROM pg_database WHERE datname = %s] followed by
    [fetchone()]: whether a row came back. *)
Variable select_database : pg -> string -> result bool.

(** [CREATE DATABASE "db"] *)
Variable create_database : pg -> string -> result pg.

(** [SELECT version() AS version] followed by [fetchone()[0]] *)
Variable select_version : pg -> result string.

(** [cursor.close()] and [connection.close()] *)
Variable close_connection : pg -> result unit.

(** [f"{e}"] *)
Variable str_of_exn : exn -> string.

Definition environ_get (key : string) : result string :=
  match dict_get environ key with
  | Some v => Ok v
  | None => Raise (KeyError key)
  end.

(** [getCredentials()] *)
Definition getCredentials : result (dict pyval) :=
  region_name <- environ_get "REGION" ;;
  secret_name <- environ_get "SECRETS_NAME" ;;
  secret <- get_secret region_name secret_name ;;
  username <- getitem secret "username" ;;
  password <- getitem secret "password" ;;
  host <- getitem secret "host" ;;
  dbname <- getitem secret "dbname" ;;
  Ok [ ("username", username); ("password", password);
       ("host", host); ("db", dbname) ].

(** [for db in databases: ...] *)
Fixpoint create_missing (databases : list string) (server : pg) : result pg :=
  match databases with
  | [] => Ok server
  | db :: rest =>
      exists_ <- select_database server db ;;
      if negb exists_ then
        server' <- create_database server db ;;
        create_missing rest server'
      else create_missing rest server
  end.

(** The body of the [try] block: the version string and the server as
    the block leaves it. *)
Definition try_body (credential : dict pyval) (db_script_name : string)
  : result (string * pg) :=
  username <- getitem (PDict credential) "username" ;;
  password <- getitem (PDict credential) "password" ;;
  host <- getitem (PDict credential) "host" ;;
  connection <- connect username password host ;;
  databases <- parse_db_config_sql (read_script db_script_name) ;;
  server <- create_missing databases connection ;;
  version <- select_version server ;;
  _ <- close_connection server ;;
  Ok (version, server).

(** [handler(event, context)]: the response, and the server state when
    the [try] block ran to its end. *)
Definition handler : result (response * option pg) :=
  credential <- getCredentials ;;
  db_script_name <- environ_get "DB_SCRIPT_NAME" ;;
  match try_body credential db_script_name with
  | Ok (version, server) =>
      Ok ({| statusCode := 200;
             body := "Database creation completed. PostgreSQL version: "
                     ++ version |},
          Some server)
  | Raise e =>
      Ok ({| statusCode := 500;
             body := "Error creating databases: " ++ str_of_exn e |},
          None)
  end.

End Handler.

End DbInitializer.

(* ================================================================== *)
(** ** Further readings of results *)

Module Readings.

(** The environment a step runs with. *)
Definition step_env (s : Pipeline.step) : dict string :=
  match s with
  | Pipeline.CodeBuildStep _ _ _ env _ => env
  | Pipeline.ManualApprovalStep _ _ => []
  end.

(** [isinstance(v, str)] *)
Definition is_str (v : pyval) : bool :=
  match v with PStr _ => true | _ => false end.

(** No character of [s] is [c]. *)
Fixpoint char_free (c : ascii) (s : string) : bool :=
  match s with
  | EmptyString => true
  | String a s' => negb (Ascii.eqb a c) && char_free c s'
  end.

(** The exception of the first YAML-named entry that cannot be read or
    parsed, if there is one. *)
Fixpoint first_failure (directory : list Config.dir_entry) : option exn :=
  match directory with
  | [] => None
  | (filename, content) :: rest =>
      if Config.is_yaml_name filename then
        match content with
        | Ok _ => first_failure rest
        | Raise e => Some e
        end
      else first_failure rest
  end.




(** Dropping of empty components as the specification words it, for one
    builder and one key sequence: with an empty tenant or environment a
    resolved scoped path has no double slash. *)
Definition no_double_slash_as_stated (self : PathBuilder.t)
    (keys : list string) : Prop :=
  PathBuilder.tenant_id self = "" \/ PathBuilder.environment self = "" ->
  forall s,
    PathBuilder.get_ssm_path self keys false = Ok s ->
    str_contains "//" s = false.

(** The text a database name is extracted from: [CREATE DATABASE], a
    space, and the name between double quotes. *)
Definition create_text (name : string) : string :=
  DbInitializer.pattern_head ++ name ++ String DbInitializer.quote "".

(** A name made of dots only (the empty name included). *)
Definition all_dots (name : string) : bool :=
  Config.leading_all "." (String.length name) name.

End Readings.

(* ================================================================== *)
(** ** Sample inputs *)

Module Samples.

(** A path specification in the shape of [config/ssm_paths.yaml]. *)
Definition ssm_paths : pyval :=
  PDict
    [ ("acm", PDict [("certificate-arn", PStr "acm/certificate-arn")]);
      ("efs", PDict [("file-system-id", PStr "efs/file-system-id")]);
      ("eks", PDict [("oidc-id", PStr "eks/oidc-id");
                     ("cluster-name", PStr "")]);
      ("shared", PDict [("registry", PStr "acme/registry")]) ].

Definition acme_dev : PathBuilder.t := PathBuilder.mk "acme" "dev" ssm_paths.

(** A builder made without a tenant. *)
Definition no_tenant_dev : PathBuilder.t := PathBuilder.mk "" "dev" ssm_paths.

(** The tree of the specification's example, [environments.yaml]. *)
Definition acme_env (approval : bool) : pyval :=
  PDict [ ("account", PStr "111122223333");
          ("region", PStr "us-east-1");
          ("cluster_admin_role_name", PStr "admin");
          ("applications", PDict []);
          ("enable_manual_approval", PBool approval);
          ("products_purchased", PList []) ].

Definition environments_doc : pyval :=
  PDict [ ("acme", PDict [ ("dev", acme_env false);
                          ("prod", acme_env true) ]) ].

(** [config.yaml] *)
Definition config_doc : pyval :=
  PDict
    [ ("organization_id", PStr "o-example");
      ("iam_identity_center_instance_arn", PStr "arn:aws:sso:::instance/x");
      ("email_subscriptions", PList [PStr "ops@example.com"]);
      ("applications", PDict []);
      ("deployment",
       PDict [ ("code_connection_arn", PStr "arn:aws:codeconnections:x");
               ("deployment_branch_name", PStr "main");
               ("github_owner", PStr "owner");
               ("github_repo", PStr "repo");
               ("kubernetes_version", PStr "1.31");
               ("karpenter_version", PStr "1.0.1");
               ("hosted_zone_arn", PStr "arn:aws:route53:::hostedzone/Z");
               ("hosted_zone_name", PStr "example.com");
               ("project_tags", PDict [("map-migrated", PStr "mig1")]) ]) ].

Definition ecr_repositories_doc : pyval :=
  PDict [("platform", PList [PStr "api"])].

(** The [config] directory as [os.listdir] may give it. *)
Definition config_dir : list Config.dir_entry :=
  [ ("config.py", Raise YAMLError);
    ("environments.yaml", Ok environments_doc);
    ("config.yaml", Ok config_doc);
    ("ssm_paths.yaml", Ok ssm_paths);
    ("ecr_repositories.yaml", Ok ecr_repositories_doc) ].

(** What [load_configurations] returns for it. *)
Definition loaded : dict pyval :=
  [ ("environments", environments_doc);
    ("config", config_doc);
    ("ssm_paths", ssm_paths);
    ("ecr_repositories", ecr_repositories_doc) ].

Definition settings : App.settings :=
  match App.read_settings config_dir with
  | Ok s => s
  | Raise _ =>
      {| App.ecr_repositories := PNone; App.environments := PNone;
         App.infra_config := PNone; App.deploy_config := PNone;
         App.app_infra_configs := PNone; App.code_connection_arn := PNone;
         App.deployment_branch_name := PNone; App.github_owner := PNone;
         App.github_repo := PNone; App.kubernetes_version := PNone;
         App.karpenter_version := PNone; App.project_tags := PNone |}
  end.

(** The same settings over another environments tree. *)
Definition settings_over (tree : pyval) : App.settings :=
  {| App.ecr_repositories := App.ecr_repositories settings;
     App.environments := tree;
     App.infra_config := App.infra_config settings;
     App.deploy_config := App.deploy_config settings;
     App.app_infra_configs := App.app_infra_configs settings;
     App.code_connection_arn := App.code_connection_arn settings;
     App.deployment_branch_name := App.deployment_branch_name settings;
     App.github_owner := App.github_owner settings;
     App.github_repo := App.github_repo settings;
     App.kubernetes_version := App.kubernetes_version settings;
     App.karpenter_version := App.karpenter_version settings;
     App.project_tags := App.project_tags settings |}.

(** A tree in which the tenant [globex] was left without environments. *)
Definition malformed_tree : pyval :=
  PDict [("acme", PDict [("dev", acme_env false)]); ("globex", PNone)].

(** A directory without [environments.yaml]. *)
Definition partial_dir : list Config.dir_entry :=
  [ ("ecr_repositories.yaml", Ok ecr_repositories_doc);
    ("config.yaml", Ok config_doc) ].

(** Pipeline properties for tenant [acme], environment [dev]. *)
Definition pipeline_props (approval : bool) : Pipeline.InfraPipelineStackProps :=
  {| Pipeline.app_infra_configs := PDict [];
     Pipeline.application_config := PDict [];
     Pipeline.cluster_admin_role_name := "admin";
     Pipeline.code_connection_arn := "arn:aws:codeconnections:x";
     Pipeline.deployment_branch_name := "main";
     Pipeline.deployment_env :=
       {| Pipeline.account := Config.DEPLOYMENT_ACCOUNT_ID;
          Pipeline.region := Config.DEPLOYMENT_REGION |};
     Pipeline.email_subscriptions := ["ops@example.com"; "dev@example.com"];
     Pipeline.enable_manual_approval := approval;
     Pipeline.github_owner := "owner";
     Pipeline.github_repo := "repo";
     Pipeline.hosted_zone_arn := "arn:aws:route53:::hostedzone/Z";
     Pipeline.hosted_zone_name := "example.com";
     Pipeline.iam_identity_center_instance_arn := "arn:aws:sso:::instance/x";
     Pipeline.karpenter_version := "1.0.1";
     Pipeline.kubernetes_version := "1.31";
     Pipeline.path_builder := acme_dev;
     Pipeline.products_purchased := PList [];
     Pipeline.project_tags := [("map-migrated", "mig1")];
     Pipeline.resource_prefix := "acme-dev";
     Pipeline.target_account :=
       {| Pipeline.account := "111122223333";
          Pipeline.region := "us-east-1" |};
     Pipeline.target_env := "dev";
     Pipeline.tenant_id := "acme" |}.

(** The stack assembled from them. *)
Definition assembled (approval : bool) : Pipeline.stack :=
  match Pipeline.InfraPipelineStack (pipeline_props approval) with
  | Ok st => st
  | Raise _ => Pipeline.empty_stack
  end.

(** A builder made without an environment, over a specification whose
    segment begins with a slash. *)
Definition acme_no_env : PathBuilder.t :=
  PathBuilder.mk "acme" ""
    (PDict [("eks", PDict [("oidc-id", PStr "/eks/oidc-id")])]).

(** A repository constructor that refuses an id its scope holds. *)
Definition checking_Repository (scope : list Toolchain.repository)
    (id name : string) : result Toolchain.repository :=
  if existsb (String.eqb id) (map Toolchain.construct_id scope)
  then Raise RuntimeError
  else Ok (Toolchain.new_repository id name).

(** Repositories of two namespaces. *)
Definition toolchain_props : Toolchain.ToolchainStackProps :=
  {| Toolchain.ecr_repositories :=
       [("platform", ["api"; "web"]); ("tools", ["runner"])];
     Toolchain.organization_id := "o-example";
     Toolchain.project_tags := [("map-migrated", "mig1")] |}.

(** A script in the shape of [db_config.sql]: the second statement names
    two databases. *)
Definition db_script : string :=
  "SELECT 'CREATE DATABASE " ++ String DbInitializer.quote "app-db"
  ++ String DbInitializer.quote "' WHERE NOT EXISTS (SELECT FROM pg_database"
  ++ " WHERE datname = 'app-db')\gexec SELECT 'CREATE DATABASE "
  ++ String DbInitializer.quote "audit" ++ String DbInitializer.quote "'"
  ++ " CREATE DATABASE " ++ String DbInitializer.quote "third"
  ++ String DbInitializer.quote "".

(** A server that is the list of its databases. *)
Definition list_has (server : list string) (db : string) : bool :=
  existsb (String.eqb db) server.

Definition db_environ : dict string :=
  [ ("REGION", "us-east-1"); ("SECRETS_NAME", "/acme/dev/rds/app");
    ("DB_SCRIPT_NAME", "db_config.sql") ].

Definition db_secret (with_dbname : bool) : pyval :=
  PDict ([ ("username", PStr "postgres"); ("password", PStr "pw");
           ("host", PStr "db.internal") ]
         ++ (if with_dbname then [("dbname", PStr "app")] else []))%list.

(** The handler over that server, holding [audit] already. *)
Definition run_handler (with_dbname : bool)
  : result (DbInitializer.response * option (list string)) :=
  DbInitializer.handler (list string) db_environ
    (fun _ _ => Ok (db_secret with_dbname))
    (fun _ _ _ => Ok ["audit"; "postgres"])
    (fun _ => Ok db_script)
    (fun server db => Ok (list_has server db))
    (fun server db => Ok (db :: server))
    (fun _ => Ok "PostgreSQL 17.2")
    (fun _ => Ok tt)
    (fun _ => "error").

(** Two files that differ only in their extension. *)
Definition twin_dir : list Config.dir_entry :=
  [ ("x.yaml", Ok (PStr "first")); ("x.yml", Ok (PStr "second")) ].

End Samples.

(* ================================================================== *)
(** * Properties *)

(** ** Strings *)

Module StrFacts.

Lemma startswith_app (p rest : string) : startswith (p ++ rest) p = true.
Proof.
  induction p as [|c p IH]; simpl.
  - reflexivity.
  - now rewrite Ascii.eqb_refl.
Qed.

Lemma startswith_app_mono (t x z : string) :
  startswith x t = true -> startswith (x ++ z) t = true.
Proof.
  revert x; induction t as [|c t IH]; intros x H.
  - reflexivity.
  - destruct x as [|d x]; simpl in *; [discriminate|].
    apply andb_true_iff in H as [-> H]. now apply IH.
Qed.

Lemma str_contains_app_mono (t x z : string) :
  str_contains t x = true -> str_contains t (x ++ z) = true.
Proof.
  induction x as [|d x IH]; intros H.
  - destruct t as [|c t]; [now destruct z | discriminate H].
  - change (String d x ++ z) with (String d (x ++ z)).
    cbn [str_contains] in *.
    apply orb_true_iff in H as [H|H].
    + change (String d (x ++ z)) with (String d x ++ z).
      now rewrite (startswith_app_mono _ _ _ H).
    + rewrite (IH H). apply orb_true_r.
Qed.

(** Whether a double slash occurs across a separator depends only on the
    two sides, each taken with the separator. *)
Lemma double_slash_join (x y : string) :
  str_contains "//" (x ++ "/" ++ y)
  = str_contains "//" (x ++ "/") || str_contains "//" ("/" ++ y).
Proof.
  remember (str_contains "//" ("/" ++ y)) as r eqn:Hr.
  induction x as [|c x IH].
  - subst r. reflexivity.
  - change (String c x ++ "/" ++ y) with (String c (x ++ "/" ++ y)).
    change (String c x ++ "/") with (String c (x ++ "/")).
    cbn [str_contains]. rewrite IH, orb_assoc. f_equal. f_equal.
    destruct x as [|d x]; simpl; now rewrite ?andb_true_r.
Qed.

Lemma append_assoc (a b c : string) : (a ++ b) ++ c = a ++ b ++ c.
Proof. induction a as [|x a IH]; simpl; [reflexivity | now rewrite IH]. Qed.

Lemma nonempty_true (s : string) : negb (String.eqb s "") = true <-> s <> "".
Proof.
  rewrite negb_true_iff. apply String.eqb_neq.
Qed.

Lemma split_on_slash_cons (s : string) :
  split_on "/" ("/" ++ s) = EmptyString :: split_on "/" s.
Proof. reflexivity. Qed.

End StrFacts.

(** ** PathBuilder *)

Module PathBuilderFacts.

Import PathBuilder StrFacts.

(** A successful call walked to a scalar and formatted it. *)
Lemma get_ssm_path_ok_inv (self : t) (keys : list string) (g : bool)
    (s : string) :
  get_ssm_path self keys g = Ok s ->
  exists seg,
    walk (config self) keys = Ok seg
    /\ isinstance_dict seg = false
    /\ (if g then _param_global_base [seg] else _param_env_base self [seg])
       = Ok s.
Proof.
  unfold get_ssm_path. intros H.
  destruct (walk (config self) keys) as [seg|e]; cbn [bind] in H.
  - exists seg. split; [reflexivity|].
    destruct (isinstance_dict seg); [discriminate H|].
    split; [reflexivity|].
    destruct (if g then _ else _) as [r|[]]; cbn in H;
      try discriminate H; exact H.
  - destruct e; discriminate H.
Qed.

(** The environment-scoped form joins the kept components. *)
Lemma param_env_base_ok (self : t) (seg : pyval) (s : string) :
  isinstance_dict seg = false ->
  _param_env_base self [seg] = Ok s ->
  s = "/" ++ String.concat "/" (components self seg)
  /\ truthy seg = nonempty (segment_text seg).
Proof.
  unfold _param_env_base, _param_base, components, str_join, nonempty.
  intros Hd H. cbn [filter truthy] in *.
  destruct (String.eqb (tenant_id self) ""), (String.eqb (environment self) "");
    cbn [negb] in *;
    destruct seg as [|[]|z|x|[|? ?]|?]; try discriminate Hd;
    cbn [truthy segment_text String.eqb negb] in *;
    try (destruct (Z.eqb z 0)); try (destruct (String.eqb x ""));
    cbn in H; try discriminate H; injection H as <-; split; reflexivity.
Qed.

(** The global form is a slash followed by the segment text. *)
Lemma param_global_base_ok (seg : pyval) (s : string) :
  isinstance_dict seg = false ->
  _param_global_base [seg] = Ok s ->
  s = "/" ++ segment_text seg.
Proof.
  unfold _param_global_base, str_join. intros Hd H. cbn [filter] in H.
  destruct seg as [|[]|z|x|[|? ?]|?]; try discriminate Hd;
    cbn [truthy segment_text] in *;
    try (destruct (Z.eqb z 0)); try (destruct (String.eqb x "") eqn:E);
    cbn in H; try discriminate H; injection H as <-; try reflexivity.
  apply String.eqb_eq in E. now subst x.
Qed.

(** Joining components that bring no empty segment gives a path without
    a double slash. *)
Lemma join_no_double_slash (comps : list string) :
  forallb edge_clean comps = true ->
  str_contains "//" ("/" ++ String.concat "/" comps) = false.
Proof.
  induction comps as [|a [|b rest] IH]; intros H.
  - reflexivity.
  - cbn [forallb] in H. rewrite andb_true_r in H.
    unfold edge_clean in H. apply negb_true_iff in H.
    cbn [String.concat].
    destruct (str_contains "//" ("/" ++ a)) eqn:E; [|reflexivity].
    apply (str_contains_app_mono _ _ "/") in E.
    rewrite append_assoc in E. congruence.
  - cbn [forallb] in H. apply andb_true_iff in H as [Ha Hr].
    unfold edge_clean in Ha. apply negb_true_iff in Ha.
    change (String.concat "/" (a :: b :: rest))
      with (a ++ "/" ++ String.concat "/" (b :: rest)).
    rewrite <- append_assoc, double_slash_join, append_assoc, Ha.
    now apply IH.
Qed.

(** C1 (amended).  With a non-empty tenant and environment, a resolved
    environment-scoped path is [/tenant/environment/segment] when the
    resolved segment is not empty, hence begins with
    [/tenant/environment/], and is exactly [/tenant/environment] when the
    segment is empty or another falsy scalar.  A resolved global path is a
    slash followed by the segment text: it begins with a slash, and the
    tenant or the environment is one of its segments only where the
    configured segment text itself has it as a segment. *)
Theorem get_ssm_path_scoping (self : t) (keys : list string) (g : bool)
    (s : string) :
  tenant_id self <> "" ->
  environment self <> "" ->
  get_ssm_path self keys g = Ok s ->
  exists seg,
    walk (config self) keys = Ok seg
    /\ (g = false ->
        let base := "/" ++ tenant_id self ++ "/" ++ environment self in
        (segment_text seg <> "" ->
           s = base ++ "/" ++ segment_text seg
           /\ begins_with (base ++ "/") s)
        /\ (segment_text seg = "" -> s = base))
    /\ (g = true ->
        s = "/" ++ segment_text seg
        /\ begins_with "/" s
        /\ (has_segment (tenant_id self) s ->
            has_segment (tenant_id self) (segment_text seg))
        /\ (has_segment (environment self) s ->
            has_segment (environment self) (segment_text seg))).
Proof.
  intros Ht He H.
  destruct (get_ssm_path_ok_inv _ _ _ _ H) as (seg & Hw & Hd & Hf).
  exists seg. split; [exact Hw|]. split; intros ->.
  - destruct (param_env_base_ok _ _ _ Hd Hf) as [-> _].
    unfold components, nonempty. cbn [filter].
    apply nonempty_true in Ht, He. rewrite Ht, He.
    cbv zeta. split.
    + intros Hs. apply nonempty_true in Hs. rewrite Hs.
      cbn [String.concat]. rewrite !append_assoc. split; [reflexivity|].
      exists (segment_text seg). now rewrite !append_assoc.
    + intros ->. reflexivity.
  - rewrite (param_global_base_ok _ _ Hd Hf).
    split; [reflexivity|]. split; [now exists (segment_text seg)|].
    unfold has_segment. rewrite split_on_slash_cons.
    split; (intros [E|Hin]; [congruence | exact Hin]).
Qed.

(** C5.  A key sequence whose walk ends on a sub-mapping is refused with
    the "expected a string but found a dictionary" error, whatever
    [global_param] is: no path is returned. *)
Theorem get_ssm_path_rejects_mapping (self : t) (keys : list string)
    (g : bool) (d : dict pyval) :
  walk (config self) keys = Ok (PDict d) ->
  get_ssm_path self keys g = Raise (ValueError (found_dict_msg keys)).
Proof.
  intros Hw. unfold get_ssm_path. now rewrite Hw.
Qed.

(** A key missing from the mapping reached so far is reported with the
    whole key path. *)
Lemma get_ssm_path_absent_key (self : t) (pre : list string) (key : string)
    (rest : list string) (g : bool) (d : dict pyval) :
  walk (config self) pre = Ok (PDict d) ->
  dict_get d key = None ->
  get_ssm_path self (pre ++ key :: rest)%list g
  = Raise (ValueError (invalid_path_msg (pre ++ key :: rest)%list)).
Proof.
  intros Hw Hk. unfold get_ssm_path.
  assert (E : walk (config self) (pre ++ key :: rest)%list
              = Raise (KeyError key)).
  { revert Hw. generalize (config self).
    induction pre as [|k pre IH]; intros c Hw; cbn [walk List.app] in *.
    - injection Hw as ->. cbn [getitem]. now rewrite Hk.
    - destruct (getitem c k) as [v|e]; cbn [bind] in *;
        [now apply IH | discriminate Hw]. }
  now rewrite E.
Qed.

(** A key applied to a reached value that is not a mapping escapes as a
    [TypeError]: the handler only catches [KeyError]. *)
Lemma get_ssm_path_through_scalar (self : t) (pre : list string)
    (key : string) (rest : list string) (g : bool) (v : pyval) :
  walk (config self) pre = Ok v ->
  isinstance_dict v = false ->
  get_ssm_path self (pre ++ key :: rest)%list g = Raise TypeError.
Proof.
  intros Hw Hd. unfold get_ssm_path.
  assert (E : walk (config self) (pre ++ key :: rest)%list = Raise TypeError).
  { revert Hw. generalize (config self).
    induction pre as [|k pre IH]; intros c Hw; cbn [walk List.app] in *.
    - injection Hw as ->. now destruct v.
    - destruct (getitem c k) as [w|e]; cbn [bind] in *;
        [now apply IH | discriminate Hw]. }
  now rewrite E.
Qed.

(** C6, at the failing input.  The path specification maps [eks] to the
    string [cluster]; asking for [eks / oidc-id] raises [TypeError], not
    the "Invalid parameter path" error. *)
Theorem get_ssm_path_scalar_intermediate :
  get_ssm_path (mk "acme" "dev" (PDict [("eks", PStr "cluster")]))
    ["eks"; "oidc-id"] false
  = Raise TypeError.
Proof. reflexivity. Qed.

(** C8 (amended).  A resolved environment-scoped path is a slash followed by the
    non-empty components among tenant, environment and segment, joined by
    single slashes: an empty tenant or environment leaves no trace, and
    when the kept components bring no empty segment of their own the path
    has no double slash. *)
Theorem get_ssm_path_drops_empty (self : t) (keys : list string)
    (s : string) :
  get_ssm_path self keys false = Ok s ->
  exists seg,
    walk (config self) keys = Ok seg
    /\ s = "/" ++ String.concat "/" (components self seg)
    /\ (tenant_id self = "" -> environment self <> "" ->
        segment_text seg <> "" ->
        s = "/" ++ environment self ++ "/" ++ segment_text seg)
    /\ (environment self = "" -> tenant_id self <> "" ->
        segment_text seg <> "" ->
        s = "/" ++ tenant_id self ++ "/" ++ segment_text seg)
    /\ (forallb edge_clean (components self seg) = true ->
        str_contains "//" s = false).
Proof.
  intros H.
  destruct (get_ssm_path_ok_inv _ _ _ _ H) as (seg & Hw & Hd & Hf).
  destruct (param_env_base_ok _ _ _ Hd Hf) as [-> _].
  exists seg. split; [exact Hw|]. split; [reflexivity|].
  unfold components, nonempty. cbn [filter].
  repeat split.
  - intros -> He Hs. apply nonempty_true in He, Hs. now rewrite He, Hs.
  - intros -> Ht Hs. apply nonempty_true in Ht, Hs. now rewrite Ht, Hs.
  - apply join_no_double_slash.
Qed.

(** C10.  A path resolved without [global_param] from a non-empty segment
    lies under the wildcard namespace: it begins with the result of
    [get_ssm_path_all] less its final star. *)
Theorem resolved_path_under_wildcard (self : t) (keys : list string)
    (s : string) (seg : pyval) :
  get_ssm_path self keys false = Ok s ->
  walk (config self) keys = Ok seg ->
  truthy seg = true ->
  exists p, get_ssm_path_all self = Ok (p ++ "*") /\ begins_with p s.
Proof.
  intros H Hw Ht.
  destruct (get_ssm_path_ok_inv _ _ _ _ H) as (seg' & Hw' & Hd & Hf).
  rewrite Hw in Hw'. injection Hw' as <-.
  destruct (param_env_base_ok _ _ _ Hd Hf) as [-> Hn].
  rewrite Ht in Hn. symmetry in Hn.
  unfold get_ssm_path_all, _param_env_base, _param_base, str_join.
  unfold components. cbn [filter truthy]. unfold nonempty in *. rewrite Hn.
  destruct (String.eqb (tenant_id self) ""), (String.eqb (environment self) "");
    cbn.
  - exists "/". split; [reflexivity|]. now exists (segment_text seg).
  - exists ("/" ++ environment self ++ "/").
    rewrite !append_assoc. split; [reflexivity|].
    exists (segment_text seg). now rewrite !append_assoc.
  - exists ("/" ++ tenant_id self ++ "/").
    rewrite !append_assoc. split; [reflexivity|].
    exists (segment_text seg). now rewrite !append_assoc.
  - exists ("/" ++ tenant_id self ++ "/" ++ environment self ++ "/").
    rewrite !append_assoc. split; [reflexivity|].
    exists (segment_text seg). now rewrite !append_assoc.
Qed.

Lemma get_ssm_path_scoping_witness :
  get_ssm_path Samples.acme_dev ["eks"; "oidc-id"] false
  = Ok "/acme/dev/eks/oidc-id"
  /\ begins_with "/acme/dev/" "/acme/dev/eks/oidc-id".
Proof.
  split; [reflexivity|].
  destruct (get_ssm_path_scoping Samples.acme_dev ["eks"; "oidc-id"] false
              "/acme/dev/eks/oidc-id") as (seg & Hw & Hs & _);
    [discriminate | discriminate | reflexivity |].
  injection Hw as <-.
  destruct (Hs eq_refl) as [Hne _].
  apply Hne. discriminate.
Defined.

(** C1 as stated fails twice.  An empty segment gives [/acme/dev], which
    does not begin with [/acme/dev/]; and the global path of a segment
    [acme/registry] is [/acme/registry], which has the tenant [acme] as a
    segment. *)
Lemma path_scoping_counterexample :
  ~ scoped_as_stated Samples.acme_dev ["eks"; "cluster-name"]
  /\ ~ global_as_stated Samples.acme_dev ["shared"; "registry"].
Proof.
  split; intros H.
  - destruct (H ltac:(discriminate) ltac:(discriminate)
                "/acme/dev" eq_refl) as [rest E].
    discriminate E.
  - destruct (H ltac:(discriminate) ltac:(discriminate)
                "/acme/registry" eq_refl) as (_ & Hn & _).
    apply Hn. right; left; reflexivity.
Qed.

Lemma get_ssm_path_rejects_mapping_witness :
  get_ssm_path Samples.acme_dev ["eks"] false
  = Raise (ValueError
      "Invalid parameter path: eks, expected a string but found a dictionary").
Proof.
  exact (get_ssm_path_rejects_mapping Samples.acme_dev ["eks"] false _
           eq_refl).
Defined.

Lemma get_ssm_path_drops_empty_witness :
  get_ssm_path Samples.no_tenant_dev ["eks"; "oidc-id"] false
  = Ok "/dev/eks/oidc-id"
  /\ str_contains "//" "/dev/eks/oidc-id" = false.
Proof.
  split; [reflexivity|].
  destruct (get_ssm_path_drops_empty Samples.no_tenant_dev
              ["eks"; "oidc-id"] "/dev/eks/oidc-id" eq_refl)
    as (seg & Hw & _ & _ & _ & Hc).
  injection Hw as <-. apply Hc. reflexivity.
Defined.

Lemma resolved_path_under_wildcard_witness :
  exists p,
    get_ssm_path_all Samples.acme_dev = Ok (p ++ "*")
    /\ begins_with p "/acme/dev/eks/oidc-id".
Proof.
  exact (resolved_path_under_wildcard Samples.acme_dev ["eks"; "oidc-id"]
           "/acme/dev/eks/oidc-id" (PStr "eks/oidc-id")
           eq_refl eq_refl eq_refl).
Defined.

End PathBuilderFacts.

(** ** Configuration loading *)

Module ConfigFacts.

Import Config.

Lemma dict_get_set {V} (d : dict V) (k k' : string) (v : V) :
  dict_get (dict_set d k v) k'
  = if String.eqb k k' then Some v else dict_get d k'.
Proof.
  induction d as [|[k0 v0] d IH]; cbn [dict_set dict_get].
  - reflexivity.
  - destruct (String.eqb k0 k) eqn:E0; cbn [dict_get].
    + apply String.eqb_eq in E0. subst k0.
      now destruct (String.eqb k k').
    + destruct (String.eqb k0 k') eqn:E1; [|exact IH].
      apply String.eqb_eq in E1. subst k0.
      rewrite String.eqb_sym in E0. now rewrite E0.
Qed.

(** What the loop leaves under a key: the last YAML-named file of that
    stem if there is one, else what was there before. *)
Lemma load_loop_get (entries : list dir_entry) :
  forall (acc loaded : dict pyval) (k : string),
    load_loop entries acc = Ok loaded ->
    dict_get loaded k
    = match last_doc entries k with
      | Some doc => Some doc
      | None => dict_get acc k
      end.
Proof.
  induction entries as [|[filename content] rest IH]; intros acc loaded k H;
    cbn [load_loop last_doc] in *.
  - now injection H as <-.
  - destruct (is_yaml_name filename); cbn [andb].
    + destruct content as [doc|e]; cbn [bind] in H; [|discriminate H].
      rewrite (IH _ _ k H), dict_get_set.
      destruct (last_doc rest k); [reflexivity|].
      now destruct (String.eqb (splitext_root filename) k).
    + rewrite (IH _ _ k H). now destruct (last_doc rest k).
Qed.

(** A stem carried by one file only is the stem of that file's document. *)
Lemma last_doc_unique (directory : list dir_entry) (filename : string)
    (doc : pyval) :
  NoDup (stems directory) ->
  In (filename, Ok doc) directory ->
  is_yaml_name filename = true ->
  last_doc directory (splitext_root filename) = Some doc.
Proof.
  unfold stems.
  induction directory as [|[f c] rest IH]; intros Hnd Hin Hy;
    [destruct Hin|].
  cbn [last_doc filter map fst] in *.
  destruct Hin as [E|Hin].
  - injection E as -> ->. rewrite Hy in *. cbn [map fst] in Hnd.
    rewrite String.eqb_refl. cbn [andb].
    destruct (last_doc rest (splitext_root filename)) eqn:El; [|reflexivity].
    exfalso. apply NoDup_cons_iff in Hnd as [Hnot _]. apply Hnot.
    clear -El. induction rest as [|[f' c'] rest IH]; [discriminate El|].
    cbn [last_doc filter map fst] in *.
    destruct (last_doc rest (splitext_root filename)).
    + destruct (is_yaml_name f'); [right|]; now apply IH.
    + destruct (is_yaml_name f'); cbn [andb] in El; [|discriminate El].
      destruct (String.eqb (splitext_root f') (splitext_root filename)) eqn:E;
        [|discriminate El].
      apply String.eqb_eq in E. now left.
  - assert (Hr : last_doc rest (splitext_root filename) = Some doc).
    { apply IH; [|exact Hin|exact Hy].
      destruct (is_yaml_name f); [|exact Hnd].
      cbn [map] in Hnd. now apply NoDup_cons_iff in Hnd. }
    now rewrite Hr.
Qed.

(** C7 (amended).  A load that returns holds, under each key, the document
    of the last listed YAML-named file whose name without extension is
    that key; so when the names without extension are pairwise distinct
    every document is kept under its own key. *)
Theorem load_configurations_last_wins (directory : list dir_entry)
    (loaded : dict pyval) :
  load_configurations directory = Ok loaded ->
  (forall k, dict_get loaded k = last_doc directory k)
  /\ (NoDup (stems directory) ->
      forall filename doc,
        In (filename, Ok doc) directory ->
        is_yaml_name filename = true ->
        dict_get loaded (splitext_root filename) = Some doc).
Proof.
  intros H.
  assert (G : forall k, dict_get loaded k = last_doc directory k).
  { intros k. rewrite (load_loop_get _ _ _ k H).
    now destruct (last_doc directory k). }
  split; [exact G|].
  intros Hnd filename doc Hin Hy. rewrite G.
  now apply last_doc_unique.
Qed.

Lemma load_configurations_last_wins_witness :
  load_configurations Samples.config_dir = Ok Samples.loaded
  /\ dict_get Samples.loaded "environments" = Some Samples.environments_doc.
Proof.
  split; [reflexivity|].
  destruct (load_configurations_last_wins Samples.config_dir Samples.loaded
              eq_refl) as [_ Hkeep].
  apply (Hkeep ltac:(repeat constructor; cbn; intuition discriminate)
           "environments.yaml" Samples.environments_doc).
  - right; left; reflexivity.
  - reflexivity.
Defined.

(** C7 as stated fails: [x.yaml] and [x.yml] are both stored under [x],
    the load returns, and the document of [x.yaml] is gone. *)
Lemma load_configurations_collision_counterexample :
  load_configurations Samples.twin_dir = Ok [("x", PStr "second")]
  /\ ~ keeps_every_document Samples.twin_dir.
Proof.
  split; [reflexivity|].
  intros H.
  destruct (H [("x", PStr "second")] eq_refl "x.yaml" (PStr "first"))
    as [k Hk]; [left; reflexivity | reflexivity |].
  cbn [dict_get] in Hk. destruct (String.eqb "x" k); discriminate Hk.
Qed.

End ConfigFacts.

(** ** Tenant and environment dispatch *)

Module AppFacts.

Import App.

Lemma dict_contains_In {V} (d : dict V) (k : string) :
  dict_contains d k = true <-> In k (dict_keys d).
Proof.
  unfold dict_contains. rewrite existsb_exists. split.
  - intros (x & Hin & E). apply String.eqb_eq in E. now subst x.
  - intros Hin. exists k. split; [exact Hin | apply String.eqb_refl].
Qed.

Lemma dict_get_In {V} (d : dict V) (k : string) (v : V) :
  dict_get d k = Some v -> In (k, v) d.
Proof.
  induction d as [|[k0 v0] d IH]; cbn [dict_get]; [discriminate|].
  destruct (String.eqb k0 k) eqn:E.
  - apply String.eqb_eq in E. subst k0. intros [= ->]. now left.
  - intros H. right. now apply IH.
Qed.






(** C9.  With the empty string as tenant the driver takes the toolchain
    branch whatever the environment argument and the environments tree
    are: the result is that of the toolchain branch, never a tenant
    pipeline and never the "Invalid arguments" error. *)
Theorem empty_tenant_selects_toolchain (s : settings)
    (ssm_paths : result pyval) (target_env : ctx)
    (directory : list Config.dir_entry) :
  dispatch s ssm_paths (Some "") target_env = toolchain_branch s
  /\ (forall id props,
        dispatch s ssm_paths (Some "") target_env
        <> Ok (InfraPipelineStack id props))
  /\ (forall msg,
        dispatch s ssm_paths (Some "") target_env <> Raise (ValueError msg))
  /\ main directory ssm_paths (Some "") target_env
     = bind (read_settings directory) toolchain_branch.
Proof.
  assert (E : dispatch s ssm_paths (Some "") target_env = toolchain_branch s)
    by reflexivity.
  split; [exact E|]. rewrite E. unfold toolchain_branch, getitem.
  repeat split.
  - intros id props.
    destruct (infra_config s) as [| | | | |d]; try discriminate.
    destruct (dict_get d "organization_id"); discriminate.
  - intros msg.
    destruct (infra_config s) as [| | | | |d]; try discriminate.
    destruct (dict_get d "organization_id"); discriminate.
Qed.

(** The same holds when the tenant argument is not given at all. *)
Lemma missing_tenant_selects_toolchain (s : settings)
    (ssm_paths : result pyval) (target_env : ctx) :
  dispatch s ssm_paths None target_env = toolchain_branch s.
Proof. reflexivity. Qed.

(** On the sample directory the toolchain stack is built. *)
Lemma main_sample_toolchain :
  exists props,
    main Samples.config_dir (Ok Samples.ssm_paths) (Some "") (Some "dev")
    = Ok (ToolchainStack "infra-toolchain" props).
Proof. eexists. reflexivity. Qed.

(** A pair of the tree selects the tenant pipeline. *)
Lemma main_sample_pipeline :
  exists props,
    main Samples.config_dir (Ok Samples.ssm_paths) (Some "acme") (Some "dev")
    = Ok (InfraPipelineStack "acme-dev-infra-pipeline" props).
Proof. eexists. reflexivity. Qed.

End AppFacts.

(** ** Pipeline assembly *)

Module PipelineFacts.

Import Pipeline.

Lemma update_at_id {A} (n : nat) (l : list A) : update_at n (fun x => x) l = l.
Proof.
  revert n; induction l as [|x l IH]; intros [|n]; cbn; try reflexivity.
  now rewrite IH.
Qed.

Lemma update_at_twice {A} (n : nat) (f g : A -> A) (l : list A) :
  update_at n g (update_at n f l) = update_at n (fun x => g (f x)) l.
Proof.
  revert n; induction l as [|x l IH]; intros [|n]; cbn; try reflexivity.
  now rewrite IH.
Qed.

Lemma subscribed_subscriptions (addresses : list string) (t : topic) :
  subscriptions (subscribed addresses t)
  = (subscriptions t ++ addresses)%list.
Proof.
  revert t; induction addresses as [|a rest IH]; intros t; cbn.
  - now rewrite app_nil_r.
  - unfold subscribed in IH. rewrite IH. cbn. now rewrite <- app_assoc.
Qed.

(** The subscription loop always returns and only touches the topic
    behind the handle. *)
Lemma subscribe_all_spec (h : nat) (addresses : list string) (st : stack) :
  subscribe_all h addresses st
  = Ok (tt, set_topics (update_at h (subscribed addresses) (topics st)) st).
Proof.
  revert st; induction addresses as [|a rest IH]; intros st.
  - cbn. unfold subscribed. cbn.
    rewrite (update_at_id h (topics st)). now destruct st.
  - cbn [subscribe_all]. unfold mbind, add_subscription. rewrite IH.
    cbn [topics set_topics]. rewrite update_at_twice. reflexivity.
Qed.

Lemma update_at_last {A} (f : A -> A) (l : list A) (x : A) :
  update_at (List.length l) f (l ++ [x])%list = (l ++ [f x])%list.
Proof.
  induction l as [|y l IH]; cbn; [reflexivity | now rewrite IH].
Qed.

Lemma mbind_inv {A B} (m : M A) (k : A -> M B) (st : stack) (r : B * stack) :
  mbind m k st = Ok r ->
  exists a st1, m st = Ok (a, st1) /\ k a st1 = Ok r.
Proof.
  unfold mbind. destruct (m st) as [[a st1]|e]; [|discriminate].
  intros H. now exists a, st1.
Qed.

Lemma extends_trans (a b c : stack) (x y : list wave) :
  extends a b x -> extends b c y -> extends a c (x ++ y)%list.
Proof.
  intros (Hw & Hb & Ht & Hr) (Hw' & Hb' & Ht' & Hr').
  repeat split; try congruence.
  now rewrite Hw', Hw, app_assoc.
Qed.

(** *** The effect of each block *)

Lemma add_stage_effect (s : stage) (st : stack) (r : unit * stack) :
  add_stage s st = Ok r -> extends st (snd r) [stage_wave s].
Proof.
  unfold add_stage, add_wave, mbind.
  destruct (built st) eqn:Hb; [discriminate|].
  intros [= <-]. cbn [snd waves set_waves built topics rules].
  rewrite update_at_last. now repeat split.
Qed.

Section Blocks.

Variable props : InfraPipelineStackProps.

Lemma add_deploy_eks_cluster_wave_effect (role : string) (st : stack)
    (r : unit * stack) :
  add_deploy_eks_cluster_wave props role st = Ok r ->
  exists mm oidc,
    tag (project_tags props) "map-migrated" = Ok mm
    /\ PathBuilder.get_ssm_path (path_builder props) ["eks"; "oidc-id"] false
       = Ok oidc
    /\ extends st (snd r)
         [post_wave "deploy-eks-cluster-wave"
            (deploy_eks_cluster_step props role mm oidc)].
Proof.
  unfold add_deploy_eks_cluster_wave, get_path, add_wave, add_post, lift,
    mbind.
  destruct (built st) eqn:Hb; [discriminate|].
  destruct (tag (project_tags props) "map-migrated") as [mm|];
    [|discriminate].
  destruct (PathBuilder.get_ssm_path _ _ _) as [oidc|]; [|discriminate].
  intros [= <-]. exists mm, oidc.
  cbn [snd waves set_waves built topics rules].
  rewrite update_at_last. now repeat split.
Qed.

Lemma add_config_eks_cluster_wave_effect (role : string) (st : stack)
    (r : unit * stack) :
  add_config_eks_cluster_wave props role st = Ok r ->
  exists acm efs,
    PathBuilder.get_ssm_path (path_builder props) ["acm"; "certificate-arn"]
      false = Ok acm
    /\ PathBuilder.get_ssm_path (path_builder props) ["efs"; "file-system-id"]
         false = Ok efs
    /\ extends st (snd r)
         [post_wave "config-eks-cluster-wave"
            (config_eks_cluster_step props role acm efs)].
Proof.
  unfold add_config_eks_cluster_wave, get_path, add_wave, add_post, lift,
    mbind.
  destruct (built st) eqn:Hb; [discriminate|].
  destruct (PathBuilder.get_ssm_path _ ["acm"; "certificate-arn"] _)
    as [acm|]; [|discriminate].
  destruct (PathBuilder.get_ssm_path _ _ _) as [efs|]; [|discriminate].
  intros [= <-]. exists acm, efs.
  cbn [snd waves set_waves built topics rules].
  rewrite update_at_last. now repeat split.
Qed.

Lemma add_approval_wave_effect (st : stack) (r : unit * stack) :
  add_approval_wave props st = Ok r ->
  extends st (snd r)
    (if enable_manual_approval props
     then [pre_wave "eks-cluster-approval-wave" approval_step]
     else []).
Proof.
  unfold add_approval_wave.
  destruct (enable_manual_approval props).
  - unfold add_wave, add_pre, mbind.
    destruct (built st) eqn:Hb; [discriminate|].
    intros [= <-]. cbn [snd waves set_waves built topics rules].
    rewrite update_at_last. now repeat split.
  - intros [= <-]. cbn [snd]. unfold extends.
    now rewrite app_nil_r.
Qed.

Lemma add_deploy_apps_wave_effect (role : string) (st : stack)
    (r : unit * stack) :
  add_deploy_apps_wave props role st = Ok r ->
  exists acm,
    PathBuilder.get_ssm_path (path_builder props) ["acm"; "certificate-arn"]
      false = Ok acm
    /\ extends st (snd r)
         [post_wave "deploy-apps-into-cluster-wave"
            (deploy_apps_into_cluster_step props role acm)].
Proof.
  unfold add_deploy_apps_wave, get_path, add_wave, add_post, lift, mbind.
  destruct (built st) eqn:Hb; [discriminate|].
  destruct (PathBuilder.get_ssm_path _ _ _) as [acm|]; [|discriminate].
  intros [= <-]. exists acm.
  cbn [snd waves set_waves built topics rules].
  rewrite update_at_last. now repeat split.
Qed.

(** The notification block leaves the waves alone.  With the flag set it
    builds the pipeline and adds one topic, subscribed to the configured
    addresses, and one rule targeting it; otherwise it does nothing. *)
Lemma add_notifications_effect (st : stack) (r : unit * stack) :
  add_notifications props st = Ok r ->
  waves (snd r) = waves st
  /\ if enable_manual_approval props then
       built (snd r) = true
       /\ (exists t,
             topics (snd r) = (topics st ++ [t])%list
             /\ subscriptions t = email_subscriptions props)
       /\ (exists rule,
             rules (snd r) = (rules st ++ [rule])%list
             /\ targets rule = [List.length (topics st)]
             /\ events rule = notification_events)
     else snd r = st.
Proof.
  unfold add_notifications.
  destruct (enable_manual_approval props).
  - unfold build_pipeline, new_topic, new_notification_rule, mbind.
    destruct (built st); [discriminate|].
    rewrite subscribe_all_spec.
    intros [= <-].
    cbn [snd waves set_topics built topics rules].
    rewrite update_at_last.
    split; [reflexivity|]. split; [reflexivity|]. split.
    + eexists. split; [reflexivity|]. now rewrite subscribed_subscriptions.
    + eexists. repeat split; reflexivity.
  - intros [= <-]. now split.
Qed.

(** What a returning constructor has read and built. *)
Lemma InfraPipelineStack_inv (st : stack) :
  InfraPipelineStack props = Ok st ->
  exists role mm oidc acm efs,
    tag (project_tags props) "map-migrated" = Ok mm
    /\ PathBuilder.get_ssm_path (path_builder props) ["eks"; "oidc-id"] false
       = Ok oidc
    /\ PathBuilder.get_ssm_path (path_builder props)
         ["acm"; "certificate-arn"] false = Ok acm
    /\ PathBuilder.get_ssm_path (path_builder props)
         ["efs"; "file-system-id"] false = Ok efs
    /\ waves st
       = ([ stage_wave (network_stage props);
            stage_wave (infra_stage props);
            post_wave "deploy-eks-cluster-wave"
              (deploy_eks_cluster_step props role mm oidc);
            stage_wave (post_deploy_stage props);
            post_wave "config-eks-cluster-wave"
              (config_eks_cluster_step props role acm efs) ]
          ++ (if enable_manual_approval props
              then [pre_wave "eks-cluster-approval-wave" approval_step]
              else [])
          ++ [ post_wave "deploy-apps-into-cluster-wave"
                 (deploy_apps_into_cluster_step props role acm) ])%list
    /\ if enable_manual_approval props then
         built st = true
         /\ (exists t,
               topics st = [t]
               /\ subscriptions t = email_subscriptions props)
         /\ (exists rule,
               rules st = [rule]
               /\ targets rule = [0]
               /\ events rule = notification_events)
       else built st = false /\ topics st = [] /\ rules st = [].
Proof.
  unfold InfraPipelineStack.
  destruct (init props empty_stack) as [[[] st']|e] eqn:H; [|discriminate].
  intros [= ->]. unfold init in H.
  apply mbind_inv in H as (role & s0 & H0 & H).
  apply mbind_inv in H as ([] & s1 & H1 & H).
  apply mbind_inv in H as ([] & s2 & H2 & H).
  apply mbind_inv in H as ([] & s3 & H3 & H).
  apply mbind_inv in H as ([] & s4 & H4 & H).
  apply mbind_inv in H as ([] & s5 & H5 & H).
  apply mbind_inv in H as ([] & s6 & H6 & H).
  apply mbind_inv in H as ([] & s7 & H7 & H).
  apply mbind_inv in H as ([] & s8 & H8 & H).
  injection H0 as <- <-. injection H1 as <-.
  apply add_stage_effect in H2. apply add_stage_effect in H3.
  apply add_deploy_eks_cluster_wave_effect in H4
    as (mm & oidc & Hmm & Hoidc & H4).
  apply add_stage_effect in H5.
  apply add_config_eks_cluster_wave_effect in H6
    as (acm & efs & Hacm & Hefs & H6).
  apply add_approval_wave_effect in H7.
  apply add_deploy_apps_wave_effect in H8 as (acm' & Hacm' & H8).
  rewrite Hacm in Hacm'. injection Hacm' as <-.
  apply add_notifications_effect in H as [Hw Hn].
  cbn [snd] in *.
  pose proof (extends_trans _ _ _ _ _ H2
               (extends_trans _ _ _ _ _ H3
                 (extends_trans _ _ _ _ _ H4
                   (extends_trans _ _ _ _ _ H5
                     (extends_trans _ _ _ _ _ H6
                       (extends_trans _ _ _ _ _ H7 H8))))))
    as (Ews & Eb & Et & Er).
  cbn [waves built topics rules List.app] in Ews, Eb, Et, Er.
  exists (resource_prefix props ++ "-codebuild-role"), mm, oidc, acm, efs.
  repeat (split; [assumption|]).
  split; [now rewrite Hw, Ews|].
  destruct (enable_manual_approval props).
  - destruct Hn as (Hb & (t & Ht & Hs) & (rule & Hr & Htg & Hev)).
    rewrite Et in Ht, Htg. rewrite Er in Hr.
    split; [exact Hb|]. split; [now exists t | now exists rule].
  - subst st. now repeat split.
Qed.

(** *** Each block returns on a pipeline that is not built yet *)

Lemma add_stage_returns (s : stage) (st : stack) :
  built st = false ->
  exists st', add_stage s st = Ok (tt, st') /\ built st' = false.
Proof.
  intros Hb. unfold add_stage, add_wave, mbind. rewrite Hb.
  eexists. split; [reflexivity | exact Hb].
Qed.

Lemma add_deploy_eks_cluster_wave_returns (role mm oidc : string)
    (st : stack) :
  tag (project_tags props) "map-migrated" = Ok mm ->
  PathBuilder.get_ssm_path (path_builder props) ["eks"; "oidc-id"] false
  = Ok oidc ->
  built st = false ->
  exists st',
    add_deploy_eks_cluster_wave props role st = Ok (tt, st')
    /\ built st' = false.
Proof.
  intros Hm Ho Hb.
  unfold add_deploy_eks_cluster_wave, get_path, add_wave, add_post, lift,
    mbind.
  rewrite Hb, Hm, Ho. eexists. split; [reflexivity | exact Hb].
Qed.

Lemma add_config_eks_cluster_wave_returns (role acm efs : string)
    (st : stack) :
  PathBuilder.get_ssm_path (path_builder props) ["acm"; "certificate-arn"]
    false = Ok acm ->
  PathBuilder.get_ssm_path (path_builder props) ["efs"; "file-system-id"]
    false = Ok efs ->
  built st = false ->
  exists st',
    add_config_eks_cluster_wave props role st = Ok (tt, st')
    /\ built st' = false.
Proof.
  intros Ha He Hb.
  unfold add_config_eks_cluster_wave, get_path, add_wave, add_post, lift,
    mbind.
  rewrite Hb, Ha, He. eexists. split; [reflexivity | exact Hb].
Qed.

Lemma add_approval_wave_returns (st : stack) :
  built st = false ->
  exists st', add_approval_wave props st = Ok (tt, st') /\ built st' = false.
Proof.
  intros Hb. unfold add_approval_wave.
  destruct (enable_manual_approval props).
  - unfold add_wave, add_pre, mbind. rewrite Hb.
    eexists. split; [reflexivity | exact Hb].
  - exists st. now split.
Qed.

Lemma add_deploy_apps_wave_returns (role acm : string) (st : stack) :
  PathBuilder.get_ssm_path (path_builder props) ["acm"; "certificate-arn"]
    false = Ok acm ->
  built st = false ->
  exists st',
    add_deploy_apps_wave props role st = Ok (tt, st') /\ built st' = false.
Proof.
  intros Ha Hb.
  unfold add_deploy_apps_wave, get_path, add_wave, add_post, lift, mbind.
  rewrite Hb, Ha. eexists. split; [reflexivity | exact Hb].
Qed.

Lemma add_notifications_returns (st : stack) :
  built st = false ->
  exists st', add_notifications props st = Ok (tt, st').
Proof.
  intros Hb. unfold add_notifications.
  destruct (enable_manual_approval props).
  - unfold build_pipeline, new_topic, new_notification_rule, mbind.
    rewrite Hb, subscribe_all_spec. eexists. reflexivity.
  - exists st. reflexivity.
Qed.

Lemma mbind_ok {A B} (m : M A) (k : A -> M B) (st st1 : stack) (a : A) :
  m st = Ok (a, st1) -> mbind m k st = k a st1.
Proof. unfold mbind. now intros ->. Qed.

(** The lookups the constructor makes itself are the tag and the three
    parameter paths: when they are there, nothing else of what is
    modelled raises.  The constructors of the stages are not modelled, so
    this says nothing of the exceptions they may raise. *)
Lemma InfraPipelineStack_returns (mm oidc acm efs : string) :
  tag (project_tags props) "map-migrated" = Ok mm ->
  PathBuilder.get_ssm_path (path_builder props) ["eks"; "oidc-id"] false
  = Ok oidc ->
  PathBuilder.get_ssm_path (path_builder props) ["acm"; "certificate-arn"]
    false = Ok acm ->
  PathBuilder.get_ssm_path (path_builder props) ["efs"; "file-system-id"]
    false = Ok efs ->
  exists st, InfraPipelineStack props = Ok st.
Proof.
  intros Hm Ho Ha He.
  unfold InfraPipelineStack, init.
  rewrite (mbind_ok _ _ _ _ _ eq_refl), (mbind_ok _ _ _ _ _ eq_refl).
  match goal with
  | |- context [mbind (add_stage ?s) _ ?st0] =>
      destruct (add_stage_returns s st0 eq_refl) as (s2 & E2 & B2)
  end.
  rewrite (mbind_ok _ _ _ _ _ E2).
  destruct (add_stage_returns (infra_stage props) _ B2) as (s3 & E3 & B3).
  rewrite (mbind_ok _ _ _ _ _ E3).
  destruct (add_deploy_eks_cluster_wave_returns
              (resource_prefix props ++ "-codebuild-role") _ _ _ Hm Ho B3)
    as (s4 & E4 & B4).
  rewrite (mbind_ok _ _ _ _ _ E4).
  destruct (add_stage_returns (post_deploy_stage props) _ B4)
    as (s5 & E5 & B5).
  rewrite (mbind_ok _ _ _ _ _ E5).
  destruct (add_config_eks_cluster_wave_returns
              (resource_prefix props ++ "-codebuild-role") _ _ _ Ha He B5)
    as (s6 & E6 & B6).
  rewrite (mbind_ok _ _ _ _ _ E6).
  destruct (add_approval_wave_returns _ B6) as (s7 & E7 & B7).
  rewrite (mbind_ok _ _ _ _ _ E7).
  destruct (add_deploy_apps_wave_returns
              (resource_prefix props ++ "-codebuild-role") _ _ Ha B7)
    as (s8 & E8 & B8).
  rewrite (mbind_ok _ _ _ _ _ E8).
  destruct (add_notifications_returns _ B8) as (s9 & E9).
  rewrite E9. now exists s9.
Qed.

End Blocks.

(** Splits the conjunctions of the goal, and nothing else. *)
Ltac conjs := repeat match goal with |- _ /\ _ => split end.

(** C2.  In a produced pipeline the Network stage, the Infra stage, the
    cluster-deploy wave, the Post-deploy stage, the cluster-config wave
    and the application-deploy wave each occur once, at increasing
    positions; with manual approval enabled the approval gate lies
    strictly between the cluster-config wave and the application-deploy
    wave, and without it there is no gate. *)
Theorem pipeline_order (props : InfraPipelineStackProps) (st : stack) :
  InfraPipelineStack props = Ok st ->
  exists net infra deploy post config apps,
    index_where (holds_stage NetworkStage) (waves st) = Some net
    /\ index_where (holds_stage InfraStage) (waves st) = Some infra
    /\ index_where (named_wave "deploy-eks-cluster-wave") (waves st)
       = Some deploy
    /\ index_where (holds_stage PostDeployStage) (waves st) = Some post
    /\ index_where (named_wave "config-eks-cluster-wave") (waves st)
       = Some config
    /\ index_where (named_wave "deploy-apps-into-cluster-wave") (waves st)
       = Some apps
    /\ (net < infra /\ infra < deploy /\ deploy < post /\ post < config
        /\ config < apps)
    /\ (count_where (holds_stage NetworkStage) (waves st) = 1
        /\ count_where (holds_stage InfraStage) (waves st) = 1
        /\ count_where (named_wave "deploy-eks-cluster-wave") (waves st) = 1
        /\ count_where (holds_stage PostDeployStage) (waves st) = 1
        /\ count_where (named_wave "config-eks-cluster-wave") (waves st) = 1
        /\ count_where (named_wave "deploy-apps-into-cluster-wave") (waves st)
           = 1)
    /\ (enable_manual_approval props = true ->
        exists gate,
          index_where is_gate (waves st) = Some gate
          /\ config < gate /\ gate < apps)
    /\ (enable_manual_approval props = false ->
        index_where is_gate (waves st) = None).
Proof.
  intros H.
  destruct (InfraPipelineStack_inv props st H)
    as (role & mm & oidc & acm & efs & _ & _ & _ & _ & -> & _).
  destruct (enable_manual_approval props).
  - exists 0, 1, 2, 3, 4, 6.
    do 6 (split; [reflexivity|]).
    split; [lia|]. split; [conjs; reflexivity|].
    split; [|discriminate].
    intros _. exists 5. split; [reflexivity | lia].
  - exists 0, 1, 2, 3, 4, 5.
    do 6 (split; [reflexivity|]).
    split; [lia|]. split; [conjs; reflexivity|].
    split; [discriminate|]. intros _. reflexivity.
Qed.

Lemma pipeline_order_witness :
  InfraPipelineStack (Samples.pipeline_props true)
  = Ok (Samples.assembled true)
  /\ index_where (named_wave "config-eks-cluster-wave")
       (waves (Samples.assembled true)) = Some 4
  /\ index_where is_gate (waves (Samples.assembled true)) = Some 5
  /\ index_where (named_wave "deploy-apps-into-cluster-wave")
       (waves (Samples.assembled true)) = Some 6.
Proof.
  assert (E : InfraPipelineStack (Samples.pipeline_props true)
              = Ok (Samples.assembled true)) by (lazy; reflexivity).
  split; [exact E|].
  destruct (pipeline_order _ _ E)
    as (net & infra & deploy & post & config & apps
        & _ & _ & _ & _ & Hc & Ha & _ & _ & Hg & _).
  destruct (Hg eq_refl) as (gate & Hgate & _ & _).
  conjs; lazy; reflexivity.
Defined.

(** C3.  Without manual approval a produced stack has no manual-approval
    step, no topic and no notification rule.  With it, the stack has one
    manual-approval step, in one gate wave, one topic subscribed to the
    configured addresses, and one notification rule, on the four
    lifecycle events, targeting that topic. *)
Theorem approval_conditionality (props : InfraPipelineStackProps)
    (st : stack) :
  InfraPipelineStack props = Ok st ->
  (enable_manual_approval props = false ->
     approval_gates st = 0
     /\ count_where is_gate (waves st) = 0
     /\ topics st = []
     /\ rules st = [])
  /\ (enable_manual_approval props = true ->
      approval_gates st = 1
      /\ count_where is_gate (waves st) = 1
      /\ exists t r,
           topics st = [t]
           /\ rules st = [r]
           /\ subscriptions t = email_subscriptions props
           /\ targets r = [0]
           /\ events r = notification_events).
Proof.
  intros H.
  destruct (InfraPipelineStack_inv props st H)
    as (role & mm & oidc & acm & efs & _ & _ & _ & _ & Hw & Hn).
  unfold approval_gates. rewrite Hw. clear Hw.
  destruct (enable_manual_approval props).
  - split; [discriminate|]. intros _.
    destruct Hn as (_ & (t & Ht & Hs) & (r & Hr & Htg & Hev)).
    split; [reflexivity|]. split; [reflexivity|].
    exists t, r. conjs; assumption.
  - split; [|discriminate]. intros _.
    destruct Hn as (_ & Ht & Hr). conjs; try assumption; reflexivity.
Qed.

Lemma approval_conditionality_witness :
  InfraPipelineStack (Samples.pipeline_props true)
  = Ok (Samples.assembled true)
  /\ approval_gates (Samples.assembled true) = 1
  /\ InfraPipelineStack (Samples.pipeline_props false)
     = Ok (Samples.assembled false)
  /\ approval_gates (Samples.assembled false) = 0
  /\ topics (Samples.assembled false) = []
  /\ rules (Samples.assembled false) = [].
Proof.
  assert (Eon : InfraPipelineStack (Samples.pipeline_props true)
                = Ok (Samples.assembled true)) by (lazy; reflexivity).
  assert (Eoff : InfraPipelineStack (Samples.pipeline_props false)
                 = Ok (Samples.assembled false)) by (lazy; reflexivity).
  destruct (approval_conditionality _ _ Eon) as [_ Hon].
  destruct (approval_conditionality _ _ Eoff) as [Hoff _].
  destruct (Hon eq_refl) as (G & _).
  destruct (Hoff eq_refl) as (G' & _ & Ht' & Hr').
  conjs; assumption.
Defined.

End PipelineFacts.

(** ** More on PathBuilder *)

Module PathBuilderMore.

Import PathBuilder StrFacts PathBuilderFacts Readings.

Lemma walk_raises (c : pyval) (keys : list string) (e : exn) :
  walk c keys = Raise e -> (exists k, e = KeyError k) \/ e = TypeError.
Proof.
  revert c; induction keys as [|k keys IH]; intros c H; cbn [walk] in H.
  - discriminate H.
  - destruct c as [| | | | |d]; cbn [getitem bind] in H;
      try (injection H as <-; now right).
    destruct (dict_get d k) as [v|]; cbn [bind] in H.
    + now apply (IH v).
    + injection H as <-. left. now exists k.
Qed.

(** What the formatter does with a resolved scalar, by kind: a string or
    a falsy scalar is formatted, any other scalar makes [join] fail. *)
Lemma format_by_kind (self : t) (seg : pyval) (g : bool) :
  isinstance_dict seg = false ->
  if is_str seg || negb (truthy seg)
  then exists s,
         (if g then _param_global_base [seg] else _param_env_base self [seg])
         = Ok s
  else (if g then _param_global_base [seg] else _param_env_base self [seg])
       = Raise TypeError.
Proof.
  intros Hd.
  unfold _param_global_base, _param_env_base, _param_base, str_join.
  cbn [filter truthy].
  destruct (negb (String.eqb (tenant_id self) "")),
           (negb (String.eqb (environment self) ""));
    destruct seg as [|[]|z|x|[|? ?]|?]; try discriminate Hd;
    cbn [is_str truthy orb negb];
    try (destruct (Z.eqb z 0)); try (destruct (String.eqb x ""));
    destruct g; cbn; try reflexivity; eexists; reflexivity.
Qed.

(** X1.  Whatever the configuration and the keys, a call either returns a
    path or raises one of three errors: the "Invalid parameter path"
    [ValueError], the "found a dictionary" [ValueError], or a [TypeError].
    A [KeyError] never leaves the function. *)
Theorem get_ssm_path_outcomes (self : t) (keys : list string) (g : bool) :
  (exists s, get_ssm_path self keys g = Ok s)
  \/ get_ssm_path self keys g = Raise (ValueError (invalid_path_msg keys))
  \/ get_ssm_path self keys g = Raise (ValueError (found_dict_msg keys))
  \/ get_ssm_path self keys g = Raise TypeError.
Proof.
  unfold get_ssm_path.
  destruct (walk (config self) keys) as [seg|e] eqn:Hw; cbn [bind].
  - destruct (isinstance_dict seg) eqn:Hd.
    + right; right; left. reflexivity.
    + pose proof (format_by_kind self seg g Hd) as F.
      destruct (is_str seg || negb (truthy seg)).
      * destruct F as [s ->]. left. now exists s.
      * rewrite F. right; right; right. reflexivity.
  - destruct (walk_raises _ _ _ Hw) as [[k ->] | ->].
    + right; left. reflexivity.
    + right; right; right. reflexivity.
Qed.

(** X2.  A walk that ends on a scalar succeeds exactly when the scalar is
    a string or is falsy (null, false, zero, empty list); a number, [true]
    or a non-empty list raises [TypeError] from the join. *)
Theorem get_ssm_path_by_scalar_kind (self : t) (keys : list string)
    (g : bool) (seg : pyval) :
  walk (config self) keys = Ok seg ->
  isinstance_dict seg = false ->
  if is_str seg || negb (truthy seg)
  then exists s, get_ssm_path self keys g = Ok s
  else get_ssm_path self keys g = Raise TypeError.
Proof.
  intros Hw Hd. unfold get_ssm_path. rewrite Hw. cbn [bind]. rewrite Hd.
  pose proof (format_by_kind self seg g Hd) as F.
  destruct (is_str seg || negb (truthy seg)).
  - destruct F as [s ->]. now exists s.
  - now rewrite F.
Qed.

Lemma get_ssm_path_by_scalar_kind_witness :
  (exists s, get_ssm_path Samples.acme_dev ["eks"; "cluster-name"] false = Ok s)
  /\ get_ssm_path (mk "acme" "dev" (PDict [("port", PInt 5432)])) ["port"]
       false = Raise TypeError.
Proof.
  split.
  - exact (get_ssm_path_by_scalar_kind Samples.acme_dev
             ["eks"; "cluster-name"] false (PStr "") eq_refl eq_refl).
  - exact (get_ssm_path_by_scalar_kind
             (mk "acme" "dev" (PDict [("port", PInt 5432)])) ["port"] false
             (PInt 5432) eq_refl eq_refl).
Defined.

(** A global path does not depend on the tenant or the environment of
    the builder. *)
Lemma global_path_ignores_scope (a b : t) (keys : list string) :
  config a = config b ->
  get_ssm_path a keys true = get_ssm_path b keys true.
Proof.
  intros E. unfold get_ssm_path. now rewrite E.
Qed.

(** X4.  Whether a call fails, and with which exception, does not depend
    on [global_param]: the two forms raise the same errors on the same
    keys. *)
Theorem errors_ignore_global_param (self : t) (keys : list string)
    (e : exn) :
  get_ssm_path self keys true = Raise e
  <-> get_ssm_path self keys false = Raise e.
Proof.
  unfold get_ssm_path.
  destruct (walk (config self) keys) as [seg|e'] eqn:Hw; cbn [bind].
  - destruct (isinstance_dict seg) eqn:Hd; [reflexivity|].
    pose proof (format_by_kind self seg true Hd) as Ft.
    pose proof (format_by_kind self seg false Hd) as Ff.
    cbv beta iota in Ft, Ff.
    destruct (is_str seg || negb (truthy seg)).
    + destruct Ft as [s1 ->], Ff as [s2 ->]. cbn. split; discriminate.
    + rewrite Ft, Ff. reflexivity.
  - reflexivity.
Qed.

Lemma append_nil_r (s : string) : s ++ "" = s.
Proof. induction s as [|c s IH]; cbn; [reflexivity | now rewrite IH]. Qed.

(** Two strings free of slashes that agree up to what follows them,
    where what follows is empty or begins with a slash, are equal. *)
Lemma slash_free_cut (x y r r' : string) :
  char_free "/" x = true -> char_free "/" y = true ->
  (r = "" \/ exists u, r = "/" ++ u) ->
  (r' = "" \/ exists u, r' = "/" ++ u) ->
  x ++ r = y ++ r' -> x = y /\ r = r'.
Proof.
  revert y; induction x as [|c x IH]; intros y Hx Hy Hr Hr' E.
  - destruct y as [|d y]; [now split|].
    cbn in E, Hy. apply andb_true_iff in Hy as [Hd _].
    destruct Hr as [->|[u ->]]; [discriminate E|].
    injection E as <- _. discriminate Hd.
  - cbn in Hx. apply andb_true_iff in Hx as [Hc Hx].
    destruct y as [|d y].
    + cbn in E. destruct Hr' as [->|[u ->]]; [discriminate E|].
      injection E as -> _. discriminate Hc.
    + cbn in E, Hy. apply andb_true_iff in Hy as [_ Hy].
      injection E as -> E.
      destruct (IH y Hx Hy Hr Hr' E) as [-> ->]. now split.
Qed.

(** X5.  Scoped paths keep tenants and environments apart: when tenant
    and environment names are non-empty and contain no slash, two
    builders that resolve to the same path have the same tenant, the same
    environment and the same segment text. *)
Theorem scoped_paths_isolate (a b : t) (ka kb : list string) (s : string)
    (sa sb : pyval) :
  tenant_id a <> "" -> environment a <> "" ->
  tenant_id b <> "" -> environment b <> "" ->
  char_free "/" (tenant_id a) = true ->
  char_free "/" (environment a) = true ->
  char_free "/" (tenant_id b) = true ->
  char_free "/" (environment b) = true ->
  walk (config a) ka = Ok sa ->
  walk (config b) kb = Ok sb ->
  get_ssm_path a ka false = Ok s ->
  get_ssm_path b kb false = Ok s ->
  tenant_id a = tenant_id b
  /\ environment a = environment b
  /\ segment_text sa = segment_text sb.
Proof.
  intros Hta Hea Htb Heb Fta Fea Ftb Feb Hwa Hwb Ha Hb.
  destruct (get_ssm_path_ok_inv _ _ _ _ Ha) as (sa' & Hwa' & Hda & Hfa).
  destruct (get_ssm_path_ok_inv _ _ _ _ Hb) as (sb' & Hwb' & Hdb & Hfb).
  rewrite Hwa in Hwa'. injection Hwa' as <-.
  rewrite Hwb in Hwb'. injection Hwb' as <-.
  destruct (param_env_base_ok _ _ _ Hda Hfa) as [Ea _].
  destruct (param_env_base_ok _ _ _ Hdb Hfb) as [Eb _].
  rewrite Ea in Eb. clear Ea Ha Hb Hfa Hfb.
  unfold components, nonempty in Eb. cbn [filter] in Eb.
  apply nonempty_true in Hta, Hea, Htb, Heb.
  rewrite Hta, Hea, Htb, Heb in Eb.
  assert (S : forall t e x,
             "/" ++ String.concat "/"
                      (t :: e :: (if negb (String.eqb x "") then [x] else []))
             = "/" ++ t ++ "/" ++ e ++ (if negb (String.eqb x "")
                                        then "/" ++ x else "")).
  { intros t e x. destruct (negb (String.eqb x "")); cbn [String.concat].
    - reflexivity.
    - now rewrite append_nil_r. }
  rewrite !S in Eb. injection Eb as Eb.
  assert (R : forall x, (if negb (String.eqb x "") then "/" ++ x else "") = ""
                        \/ exists u, (if negb (String.eqb x "")
                                      then "/" ++ x else "") = "/" ++ u).
  { intros x. destruct (negb (String.eqb x "")); [right; now exists x | now left]. }
  destruct (slash_free_cut (tenant_id a) (tenant_id b) _ _ Fta Ftb
              (or_intror (ex_intro _ _ eq_refl))
              (or_intror (ex_intro _ _ eq_refl)) Eb) as [Et Eb'].
  injection Eb' as Eb'.
  destruct (slash_free_cut (environment a) (environment b) _ _ Fea Feb
              (R _) (R _) Eb') as [Ee Es].
  split; [exact Et|]. split; [exact Ee|].
  destruct (String.eqb (segment_text sa) "") eqn:Xa,
           (String.eqb (segment_text sb) "") eqn:Xb; cbn [negb] in Es.
  - apply String.eqb_eq in Xa, Xb. congruence.
  - discriminate Es.
  - discriminate Es.
  - now injection Es.
Qed.

Lemma scoped_paths_isolate_witness :
  let a := Samples.acme_dev in
  let b := mk "acme" "dev" (PDict [("oidc", PStr "eks/oidc-id")]) in
  get_ssm_path a ["eks"; "oidc-id"] false = get_ssm_path b ["oidc"] false
  /\ tenant_id a = tenant_id b
  /\ environment a = environment b.
Proof.
  cbv zeta. split; [reflexivity|].
  destruct (scoped_paths_isolate Samples.acme_dev
              (mk "acme" "dev" (PDict [("oidc", PStr "eks/oidc-id")]))
              ["eks"; "oidc-id"] ["oidc"] "/acme/dev/eks/oidc-id"
              (PStr "eks/oidc-id") (PStr "eks/oidc-id"))
    as (Et & Ee & _);
    try discriminate; try reflexivity.
  now split.
Defined.

(** X6.  A key that is missing from the mapping reached so far is
    reported as "Invalid parameter path" followed by the whole key path,
    not only the missing key, for either value of [global_param]. *)
Theorem missing_key_reports_whole_path (self : t) (pre : list string)
    (key : string) (rest : list string) (g : bool) (d : dict pyval) :
  walk (config self) pre = Ok (PDict d) ->
  dict_get d key = None ->
  get_ssm_path self (pre ++ key :: rest)%list g
  = Raise (ValueError
             ("Invalid parameter path: "
              ++ String.concat "/" (pre ++ key :: rest)%list)).
Proof.
  intros Hw Hk. unfold get_ssm_path.
  assert (E : walk (config self) (pre ++ key :: rest)%list
              = Raise (KeyError key)).
  { revert Hw. generalize (config self).
    induction pre as [|k pre IH]; intros c Hw; cbn [walk List.app] in *.
    - injection Hw as ->. cbn [getitem]. now rewrite Hk.
    - destruct (getitem c k) as [v|e]; cbn [bind] in *;
        [now apply IH | discriminate Hw]. }
  now rewrite E.
Qed.

Lemma missing_key_reports_whole_path_witness :
  get_ssm_path Samples.acme_dev ["eks"; "node-role"; "arn"] false
  = Raise (ValueError "Invalid parameter path: eks/node-role/arn").
Proof.
  exact (missing_key_reports_whole_path Samples.acme_dev ["eks"] "node-role"
           ["arn"] false _ eq_refl eq_refl).
Defined.

End PathBuilderMore.

(** ** More on configuration loading *)

Module ConfigMore.

Import Config ConfigFacts Readings.

(** X7.  Entries that are not named [*.yaml] or [*.yml] play no part:
    they are neither opened nor stored, so the load of a directory is the
    load of its YAML-named entries, even if another entry is unreadable. *)
Theorem load_ignores_other_files (directory : list dir_entry) :
  load_configurations directory
  = load_configurations
      (filter (fun e => is_yaml_name (fst e)) directory).
Proof.
  unfold load_configurations. generalize (@nil (string * pyval)).
  induction directory as [|[f c] rest IH]; intros acc;
    cbn [load_loop filter fst].
  - reflexivity.
  - destruct (is_yaml_name f) eqn:Ey; cbn [load_loop]; [|apply IH].
    rewrite Ey. destruct c as [doc|e]; cbn [bind]; [apply IH | reflexivity].
Qed.

(** X8.  The load raises exactly when a YAML-named entry cannot be read
    or parsed, and then raises the exception of the first such entry in
    listing order; otherwise it returns. *)
Theorem load_fails_on_first_bad_file (directory : list dir_entry) :
  match first_failure directory with
  | Some e => load_configurations directory = Raise e
  | None => exists loaded, load_configurations directory = Ok loaded
  end.
Proof.
  unfold load_configurations. generalize (@nil (string * pyval)).
  induction directory as [|[f c] rest IH]; intros acc;
    cbn [load_loop first_failure].
  - now exists acc.
  - destruct (is_yaml_name f); [|apply IH].
    destruct c as [doc|e]; cbn [bind]; [apply IH | reflexivity].
Qed.

Lemma dict_set_keys {V} (d : dict V) (k : string) (v : V) :
  dict_keys (dict_set d k v)
  = if dict_contains d k then dict_keys d else (dict_keys d ++ [k])%list.
Proof.
  unfold dict_contains.
  induction d as [|[k0 v0] d IH]; cbn [dict_set dict_keys map fst existsb].
  - reflexivity.
  - rewrite (String.eqb_sym k k0).
    destruct (String.eqb k0 k); cbn [dict_keys map fst orb].
    + reflexivity.
    + fold (dict_keys (dict_set d k v)). rewrite IH.
      fold (dict_keys d). now destruct (existsb (String.eqb k) (dict_keys d)).
Qed.

Lemma dict_contains_keys {V} (d : dict V) (k : string) :
  dict_contains d k = true <-> In k (dict_keys d).
Proof.
  unfold dict_contains. rewrite existsb_exists. split.
  - intros (x & Hin & E). apply String.eqb_eq in E. now subst x.
  - intros Hin. exists k. split; [exact Hin | apply String.eqb_refl].
Qed.

Lemma load_loop_keys (entries : list dir_entry) :
  forall (acc loaded : dict pyval),
    load_loop entries acc = Ok loaded ->
    NoDup (dict_keys acc) ->
    NoDup (dict_keys loaded)
    /\ forall k, In k (dict_keys loaded)
                 <-> In k (dict_keys acc) \/ In k (stems entries).
Proof.
  unfold stems.
  induction entries as [|[f c] rest IH]; intros acc loaded H Hnd;
    cbn [load_loop filter map fst] in *.
  - injection H as <-. split; [exact Hnd|]. intros k. cbn [In]. tauto.
  - destruct (is_yaml_name f).
    + destruct c as [doc|e]; cbn [bind] in H; [|discriminate H].
      assert (Hnd' : NoDup (dict_keys (dict_set acc (splitext_root f) doc))).
      { rewrite dict_set_keys.
        destruct (dict_contains acc (splitext_root f)) eqn:Ec; [exact Hnd|].
        apply NoDup_app; [exact Hnd | repeat constructor; intros [] |].
        intros x Hx [<-|[]].
        apply dict_contains_keys in Hx. congruence. }
      destruct (IH _ _ H Hnd') as [N K]. split; [exact N|].
      intros k. rewrite K, dict_set_keys. cbn [map fst In].
      destruct (dict_contains acc (splitext_root f)) eqn:Ec.
      * apply dict_contains_keys in Ec. split; [tauto|].
        intros [?|[<-|?]]; tauto.
      * rewrite in_app_iff. cbn [In]. tauto.
    + now apply IH.
Qed.

(** X9.  A returned dictionary has no repeated key, and its keys are
    exactly the names, without extension, of the YAML-named entries. *)
Theorem loaded_keys_are_stems (directory : list dir_entry)
    (loaded : dict pyval) :
  load_configurations directory = Ok loaded ->
  NoDup (dict_keys loaded)
  /\ forall k, In k (dict_keys loaded) <-> In k (stems directory).
Proof.
  intros H. destruct (load_loop_keys _ _ _ H (NoDup_nil _)) as [N K].
  split; [exact N|]. intros k. rewrite K. cbn. tauto.
Qed.

Lemma loaded_keys_are_stems_witness :
  NoDup (dict_keys Samples.loaded)
  /\ (In "environments" (dict_keys Samples.loaded)
      <-> In "environments" (stems Samples.config_dir)).
Proof.
  destruct (loaded_keys_are_stems Samples.config_dir Samples.loaded eq_refl)
    as [N K].
  split; [exact N | apply K].
Defined.

Lemma length_append (a b : string) :
  String.length (a ++ b) = String.length a + String.length b.
Proof. induction a as [|c a IH]; cbn; [reflexivity | now rewrite IH]. Qed.

Lemma substring_skip (a b : string) (m : nat) :
  String.substring (String.length a) m (a ++ b) = String.substring 0 m b.
Proof. induction a as [|c a IH]; cbn; [reflexivity | exact IH]. Qed.

Lemma substring_head (a b : string) :
  String.substring 0 (String.length a) (a ++ b) = a.
Proof.
  induction a as [|c a IH]; cbn; [now destruct b | now rewrite IH].
Qed.

Lemma endswith_append (name ext : string) :
  String.substring 0 (String.length ext) ext = ext ->
  endswith (name ++ ext) ext = true.
Proof.
  intros He. unfold endswith. rewrite length_append.
  replace (String.length name + String.length ext - String.length ext)
    with (String.length name) by lia.
  rewrite substring_skip, He, String.eqb_refl, andb_true_r.
  apply Nat.leb_le. lia.
Qed.

Lemma rfind_append (c : ascii) (a b : string) :
  rfind c (a ++ b)
  = match rfind c b with
    | Some i => Some (String.length a + i)
    | None => rfind c a
    end.
Proof.
  induction a as [|x a IH]; cbn [append rfind String.length].
  - now destruct (rfind c b).
  - rewrite IH. now destruct (rfind c b).
Qed.

Lemma leading_all_append (c : ascii) (a b : string) :
  leading_all c (String.length a) (a ++ b)
  = leading_all c (String.length a) a.
Proof.
  induction a as [|x a IH]; cbn; [reflexivity | now rewrite IH].
Qed.

(** X10.  A file named [name.yaml] or [name.yml] is loaded, under the key
    [name]; only when [name] is empty or made of dots alone (as for the
    hidden file [.yaml]) is the whole file name, extension included, the
    key. *)
Theorem yaml_file_key (name ext : string) :
  ext = ".yaml" \/ ext = ".yml" ->
  is_yaml_name (name ++ ext) = true
  /\ splitext_root (name ++ ext)
     = if all_dots name then name ++ ext else name.
Proof.
  intros He. split.
  - unfold is_yaml_name. destruct He as [-> | ->].
    + now rewrite endswith_append.
    + rewrite (endswith_append name ".yml") by reflexivity.
      apply orb_true_r.
  - unfold splitext_root, all_dots. rewrite rfind_append.
    assert (R : rfind "." ext = Some 0) by (destruct He as [-> | ->]; reflexivity).
    rewrite R, Nat.add_0_r, leading_all_append.
    destruct (leading_all "." (String.length name) name); [reflexivity|].
    apply substring_head.
Qed.

Lemma yaml_file_key_witness :
  splitext_root "environments.yaml" = "environments"
  /\ splitext_root ".yml" = ".yml".
Proof.
  split.
  - exact (proj2 (yaml_file_key "environments" ".yaml" (or_introl eq_refl))).
  - exact (proj2 (yaml_file_key "" ".yml" (or_intror eq_refl))).
Defined.

End ConfigMore.

(** ** More on the dispatch *)

Module AppMore.

Import App AppFacts Readings.





(** X12.  A non-empty tenant and an environment that are an entry of the
    tree always take the tenant-pipeline branch: neither the toolchain
    stack nor the "Invalid arguments" error can result from the
    dispatch. *)
Theorem entry_selects_tenant_branch (s : settings)
    (ssm_paths : result pyval) (t e : string) (tenants envs : dict pyval)
    (entry : pyval) :
  t <> "" ->
  environments s = PDict tenants ->
  dict_get tenants t = Some (PDict envs) ->
  dict_get envs e = Some entry ->
  dispatch s ssm_paths (Some t) (Some e)
  = tenant_branch s ssm_paths (Some t) (Some e).
Proof.
  intros Hne He Ht Hen. unfold dispatch. cbn [ctx_val truthy].
  apply StrFacts.nonempty_true in Hne. rewrite Hne. cbn [negb].
  unfold valid_pair. rewrite He. cbn [ctx_in bind].
  assert (C1 : dict_contains tenants t = true).
  { apply dict_contains_In. apply dict_get_In in Ht.
    unfold dict_keys. change t with (fst (t, PDict envs)). now apply in_map. }
  assert (C2 : dict_contains envs e = true).
  { apply dict_contains_In. apply dict_get_In in Hen.
    unfold dict_keys. change e with (fst (e, entry)). now apply in_map. }
  rewrite C1. cbn [ctx_getitem getitem]. rewrite Ht. cbn [bind ctx_in].
  now rewrite C2.
Qed.

Lemma entry_selects_tenant_branch_witness :
  dispatch Samples.settings (Ok Samples.ssm_paths) (Some "acme") (Some "dev")
  = tenant_branch Samples.settings (Ok Samples.ssm_paths) (Some "acme")
      (Some "dev").
Proof.
  exact (entry_selects_tenant_branch Samples.settings (Ok Samples.ssm_paths)
           "acme" "dev" _ _ _ ltac:(discriminate) eq_refl eq_refl eq_refl).
Defined.

Lemma valid_envs_of_bad_tenant (tenants : dict pyval) (tenant : string)
    (v : pyval) :
  In (tenant, v) tenants -> isinstance_dict v = false ->
  valid_envs_of tenants = Raise AttributeError.
Proof.
  induction tenants as [|[tn w] rest IH]; intros Hin Hv; [destruct Hin|].
  cbn [valid_envs_of keys items].
  destruct Hin as [E|Hin].
  - injection E as -> ->. now destruct v.
  - destruct w as [| | | | |d]; try reflexivity.
    cbn [bind]. now rewrite (IH Hin Hv).
Qed.

(** X13.  When some tenant of the tree does not map to a mapping (a
    tenant left without environments, say), a request for a tenant that
    is not in the tree does not get the "Invalid arguments" error: the
    enumeration itself raises [AttributeError]. *)
Theorem malformed_tree_masks_validation_error (s : settings)
    (ssm_paths : result pyval) (t : string) (target_env : ctx)
    (tenants : dict pyval) (bad : string) (v : pyval) :
  t <> "" ->
  environments s = PDict tenants ->
  dict_contains tenants t = false ->
  In (bad, v) tenants -> isinstance_dict v = false ->
  dispatch s ssm_paths (Some t) target_env = Raise AttributeError.
Proof.
  intros Hne He Hc Hin Hv. unfold dispatch. cbn [ctx_val truthy].
  apply StrFacts.nonempty_true in Hne. rewrite Hne. cbn [negb].
  unfold valid_pair, valid_envs. rewrite He. cbn [ctx_in bind items].
  rewrite Hc. cbn [bind].
  now rewrite (valid_envs_of_bad_tenant _ _ _ Hin Hv).
Qed.

Lemma malformed_tree_masks_validation_error_witness :
  dispatch (Samples.settings_over Samples.malformed_tree)
    (Ok Samples.ssm_paths) (Some "initech") (Some "dev")
  = Raise AttributeError.
Proof.
  exact (malformed_tree_masks_validation_error
           (Samples.settings_over Samples.malformed_tree)
           (Ok Samples.ssm_paths) "initech" (Some "dev") _ "globex" PNone
           ltac:(discriminate) eq_refl eq_refl
           (or_intror (or_introl eq_refl)) eq_refl).
Defined.

(** X14.  Every configuration document is read before the dispatch: a
    directory without an [environments] document makes the script raise
    [KeyError] even when no tenant is given and only the toolchain stack
    is asked for. *)
Theorem toolchain_needs_environments_document
    (directory : list Config.dir_entry) (ssm_paths : result pyval)
    (tenant_id target_env : ctx) (loaded : dict pyval) (repos : pyval) :
  Config.load_configurations directory = Ok loaded ->
  dict_get loaded "ecr_repositories" = Some repos ->
  dict_get loaded "environments" = None ->
  main directory ssm_paths tenant_id target_env
  = Raise (KeyError "environments").
Proof.
  intros Hl Hr He. unfold main, read_settings.
  rewrite Hl. cbn [bind getitem]. now rewrite Hr, He.
Qed.

Lemma toolchain_needs_environments_document_witness :
  main Samples.partial_dir (Ok Samples.ssm_paths) None None
  = Raise (KeyError "environments").
Proof.
  exact (toolchain_needs_environments_document Samples.partial_dir
           (Ok Samples.ssm_paths) None None
           [ ("ecr_repositories", Samples.ecr_repositories_doc);
             ("config", Samples.config_doc) ]
           Samples.ecr_repositories_doc eq_refl eq_refl eq_refl).
Defined.

End AppMore.

(** ** More on the pipeline *)

Module PipelineMore.

Import Pipeline PipelineFacts Readings.

(** X16.  A produced pipeline has six waves, or seven with manual
    approval, and the constructor itself builds the pipeline only in the
    second case. *)
Theorem wave_count_and_build (props : InfraPipelineStackProps) (st : stack) :
  InfraPipelineStack props = Ok st ->
  List.length (waves st) = (if enable_manual_approval props then 7 else 6)
  /\ built st = enable_manual_approval props.
Proof.
  intros H.
  destruct (InfraPipelineStack_inv props st H)
    as (role & mm & oidc & acm & efs & _ & _ & _ & _ & -> & Hn).
  destruct (enable_manual_approval props).
  - split; [reflexivity | apply Hn].
  - split; [reflexivity | apply Hn].
Qed.

Lemma wave_count_and_build_witness :
  List.length (waves (Samples.assembled true)) = 7
  /\ built (Samples.assembled true) = true
  /\ List.length (waves (Samples.assembled false)) = 6
  /\ built (Samples.assembled false) = false.
Proof.
  assert (Eon : InfraPipelineStack (Samples.pipeline_props true)
                = Ok (Samples.assembled true)) by (lazy; reflexivity).
  assert (Eoff : InfraPipelineStack (Samples.pipeline_props false)
                 = Ok (Samples.assembled false)) by (lazy; reflexivity).
  destruct (wave_count_and_build _ _ Eon) as [L1 B1].
  destruct (wave_count_and_build _ _ Eoff) as [L2 B2].
  repeat match goal with |- _ /\ _ => split end; assumption.
Defined.

(** X17.  Every parameter path in the environment of a step is the path
    the builder resolves for the matching keys: [OIDC_ID_PARAM] for
    [eks / oidc-id], [ACM_CERTIFICATE_ARN] for [acm / certificate-arn]
    (the same value in the configuration and the application steps) and
    [EFS_FILE_SYSTEM_PARAM] for [efs / file-system-id]. *)
Theorem step_paths_are_resolved_paths (props : InfraPipelineStackProps)
    (st : stack) (w : wave) (s : step) (v : string) :
  InfraPipelineStack props = Ok st ->
  In w (waves st) -> In s (wave_steps w) ->
  (dict_get (step_env s) "OIDC_ID_PARAM" = Some v ->
   PathBuilder.get_ssm_path (path_builder props) ["eks"; "oidc-id"] false
   = Ok v)
  /\ (dict_get (step_env s) "ACM_CERTIFICATE_ARN" = Some v ->
      PathBuilder.get_ssm_path (path_builder props)
        ["acm"; "certificate-arn"] false = Ok v)
  /\ (dict_get (step_env s) "EFS_FILE_SYSTEM_PARAM" = Some v ->
      PathBuilder.get_ssm_path (path_builder props)
        ["efs"; "file-system-id"] false = Ok v).
Proof.
  intros H Hw Hs.
  destruct (InfraPipelineStack_inv props st H)
    as (role & mm & oidc & acm & efs & _ & Ho & Ha & He & E & _).
  rewrite E in Hw. clear E H.
  assert (C : In w [ stage_wave (network_stage props);
                     stage_wave (infra_stage props);
                     post_wave "deploy-eks-cluster-wave"
                       (deploy_eks_cluster_step props role mm oidc);
                     stage_wave (post_deploy_stage props);
                     post_wave "config-eks-cluster-wave"
                       (config_eks_cluster_step props role acm efs);
                     pre_wave "eks-cluster-approval-wave" approval_step;
                     post_wave "deploy-apps-into-cluster-wave"
                       (deploy_apps_into_cluster_step props role acm) ]).
  { destruct (enable_manual_approval props); cbn [List.app In] in Hw |- *;
      tauto. }
  clear Hw. cbn [In] in C.
  destruct C as [<-|[<-|[<-|[<-|[<-|[<-|[<-|[]]]]]]]];
    cbn [wave_steps stage_wave post_wave pre_wave wave_add_stage
         wave_add_post wave_add_pre empty_wave wave_pre wave_post
         List.app In] in Hs;
    try (exfalso; exact Hs); destruct Hs as [<-|[]];
    cbn [step_env deploy_eks_cluster_step config_eks_cluster_step
         deploy_apps_into_cluster_step approval_step dict_get];
    repeat match goal with |- _ /\ _ => split end;
    intros Hv; lazy in Hv; try discriminate Hv;
    injection Hv as <-; assumption.
Qed.

Lemma step_paths_are_resolved_paths_witness :
  PathBuilder.get_ssm_path Samples.acme_dev ["eks"; "oidc-id"] false
  = Ok "/acme/dev/eks/oidc-id".
Proof.
  assert (E : InfraPipelineStack (Samples.pipeline_props true)
              = Ok (Samples.assembled true)) by (lazy; reflexivity).
  refine (proj1 (step_paths_are_resolved_paths
                   (Samples.pipeline_props true) (Samples.assembled true)
                   (post_wave "deploy-eks-cluster-wave"
                      (deploy_eks_cluster_step (Samples.pipeline_props true)
                         "acme-dev-codebuild-role" "mig1"
                         "/acme/dev/eks/oidc-id"))
                   (deploy_eks_cluster_step (Samples.pipeline_props true)
                      "acme-dev-codebuild-role" "mig1"
                      "/acme/dev/eks/oidc-id")
                   "/acme/dev/eks/oidc-id" E _ _) _).
  - lazy. right; right; left; reflexivity.
  - lazy. left; reflexivity.
  - lazy. reflexivity.
Defined.

(** X18.  In a produced pipeline a manual approval is never anything but
    the single step before a wave that holds no stage and has no step
    after it; every other wave has no step before it, and the steps
    after it are build steps. *)
Theorem approval_only_gates (props : InfraPipelineStackProps) (st : stack)
    (w : wave) :
  InfraPipelineStack props = Ok st ->
  In w (waves st) ->
  existsb is_manual_approval (wave_post w) = false
  /\ (wave_pre w = []
      \/ (enable_manual_approval props = true
          /\ wave_pre w = [approval_step]
          /\ wave_stages w = [] /\ wave_post w = [])).
Proof.
  intros H Hw.
  destruct (InfraPipelineStack_inv props st H)
    as (role & mm & oidc & acm & efs & _ & _ & _ & _ & E & _).
  rewrite E in Hw. clear E H.
  destruct (enable_manual_approval props); cbn [List.app In] in Hw.
  - destruct Hw as [<-|[<-|[<-|[<-|[<-|[<-|[<-|[]]]]]]]];
      (split; [reflexivity|]);
      try (left; reflexivity).
    right. now repeat split.
  - destruct Hw as [<-|[<-|[<-|[<-|[<-|[<-|[]]]]]]];
      (split; [reflexivity|]); left; reflexivity.
Qed.

Lemma approval_only_gates_witness :
  forallb (fun w => negb (existsb is_manual_approval (wave_post w)))
    (waves (Samples.assembled true)) = true.
Proof.
  assert (E : InfraPipelineStack (Samples.pipeline_props true)
              = Ok (Samples.assembled true)) by (lazy; reflexivity).
  apply forallb_forall. intros w Hw.
  destruct (approval_only_gates _ _ w E Hw) as [-> _]. reflexivity.
Defined.

End PipelineMore.

(** ** The toolchain stack *)

Module ToolchainFacts.

Import Toolchain Readings.

Lemma inner_loop_spec (props : ToolchainStackProps) (namespace : string)
    (repositories : list string) (stack : list repository) :
  inner_loop props namespace repositories stack
  = (stack ++ map (make_repository props namespace) repositories)%list.
Proof.
  revert stack; induction repositories as [|r rest IH]; intros stack;
    cbn [inner_loop map].
  - now rewrite app_nil_r.
  - now rewrite IH, <- app_assoc.
Qed.

Lemma outer_loop_spec (props : ToolchainStackProps)
    (items : dict (list string)) (stack : list repository) :
  outer_loop props items stack
  = (stack ++ map (fun e => make_repository props (fst e) (snd e))
                  (entries items))%list.
Proof.
  unfold entries.
  revert stack; induction items as [|[ns repos] rest IH]; intros stack;
    cbn [outer_loop flat_map fst snd].
  - now rewrite app_nil_r.
  - rewrite IH, inner_loop_spec, map_app, map_map, <- app_assoc.
    reflexivity.
Qed.

(** The repositories asked for: one per configured entry, in order,
    named [namespace/repository], scanning on push, with the
    organization-pull statement and no other. *)
Lemma init_repositories (props : ToolchainStackProps) :
  map repository_name (init props)
  = map (fun e => fst e ++ "/" ++ snd e) (entries (ecr_repositories props))
  /\ forall r, In r (init props) ->
       image_scan_on_push r = true
       /\ resource_policy r = [organization_pull (organization_id props)].
Proof.
  unfold init. rewrite outer_loop_spec. cbn [List.app]. split.
  - rewrite map_map. reflexivity.
  - intros r Hr. apply in_map_iff in Hr as (e & <- & _). now split.
Qed.

(** Two names built as [x ++ c ++ r] from prefixes free of the character
    [c] have equal prefixes and equal remainders. *)
Lemma char_free_split (c : ascii) (x y r r' : string) :
  char_free c x = true -> char_free c y = true ->
  x ++ String c r = y ++ String c r' -> x = y /\ r = r'.
Proof.
  revert y; induction x as [|a x IH]; intros y Hx Hy E.
  - destruct y as [|d y]; cbn in E.
    + injection E as ->. now split.
    + cbn in Hy. apply andb_true_iff in Hy as [Hd _].
      injection E as <- _. rewrite Ascii.eqb_refl in Hd. discriminate Hd.
  - cbn in Hx. apply andb_true_iff in Hx as [Ha Hx].
    destruct y as [|d y]; cbn in E.
    + injection E as -> _. rewrite Ascii.eqb_refl in Ha. discriminate Ha.
    + cbn in Hy. apply andb_true_iff in Hy as [_ Hy].
      injection E as -> E. destruct (IH y Hx Hy E) as [-> ->]. now split.
Qed.

Lemma NoDup_entries (items : dict (list string)) :
  NoDup (dict_keys items) ->
  (forall ns repos, In (ns, repos) items -> NoDup repos) ->
  NoDup (entries items).
Proof.
  unfold entries.
  induction items as [|[ns repos] rest IH]; intros Hk Hr;
    cbn [flat_map fst snd dict_keys map] in *; [constructor|].
  apply NoDup_cons_iff in Hk as [Hns Hk].
  apply NoDup_app.
  - assert (Hn : NoDup repos) by (apply (Hr ns); now left).
    clear IH Hr. induction Hn as [|r l Hnot _ IHl]; cbn [map]; constructor.
    + intros Hin. apply in_map_iff in Hin as (r' & [= ->] & Hin).
      now apply Hnot.
    + exact IHl.
  - apply IH; [exact Hk|]. intros n rs Hin. apply (Hr n). now right.
  - intros [n r] H1 H2. apply Hns.
    apply in_map_iff in H1 as (r' & [= <- <-] & _).
    apply in_flat_map in H2 as ([n' rs] & Hin & H2).
    apply in_map_iff in H2 as (r'' & E & _). cbn [fst] in E.
    injection E as -> _.
    change ns with (fst (ns, rs)). now apply in_map.
Qed.

(** The names built with separator [c] are pairwise distinct when the
    entries are and no namespace contains [c]. *)
Lemma separated_names_NoDup (c : ascii) (items : dict (list string)) :
  NoDup (dict_keys items) ->
  (forall ns repos, In (ns, repos) items ->
     NoDup repos /\ char_free c ns = true) ->
  NoDup (map (fun e => fst e ++ String c (snd e)) (entries items)).
Proof.
  intros Hk Hi.
  assert (F : forall e, In e (entries items) -> char_free c (fst e) = true).
  { intros [n r] He. unfold entries in He.
    apply in_flat_map in He as ([n' rs] & Hin & He).
    apply in_map_iff in He as (r' & [= <- <-] & _).
    apply (Hi n' rs Hin). }
  assert (N : NoDup (entries items)).
  { apply NoDup_entries; [exact Hk|]. intros ns rs Hin. apply (Hi ns rs Hin). }
  revert F N. generalize (entries items) as l.
  induction l as [|[n r] l IH]; intros F N; cbn [map fst snd]; [constructor|].
  apply NoDup_cons_iff in N as [Hn N]. constructor.
  - intros Hin. apply in_map_iff in Hin as ([n' r'] & E & Hin').
    cbn [fst snd] in E.
    destruct (char_free_split c n' n r' r) as [-> ->];
      [apply (F (n', r')); now right | apply (F (n, r)); now left | exact E |].
    now apply Hn.
  - apply IH; [|exact N]. intros e He. apply F. now right.
Qed.

(** X20.  The construct ids, built as [namespace-repository], are
    pairwise distinct, as the stack needs them to be, whenever the
    namespaces are distinct, none of them contains a dash, and no
    namespace lists a repository twice. *)
Theorem construct_ids_unique (props : ToolchainStackProps) :
  NoDup (dict_keys (ecr_repositories props)) ->
  (forall ns repos, In (ns, repos) (ecr_repositories props) ->
     NoDup repos /\ char_free "-" ns = true) ->
  NoDup (map construct_id (init props)).
Proof.
  intros Hk Hi. unfold init. rewrite outer_loop_spec. cbn [List.app].
  rewrite map_map. cbn [make_repository construct_id add_to_resource_policy
                        new_repository].
  exact (separated_names_NoDup "-" _ Hk Hi).
Qed.

(** X21.  The repository names, built as [namespace/repository], are
    pairwise distinct whenever the namespaces are distinct, none of them
    contains a slash, and no namespace lists a repository twice. *)
Theorem repository_names_unique (props : ToolchainStackProps) :
  NoDup (dict_keys (ecr_repositories props)) ->
  (forall ns repos, In (ns, repos) (ecr_repositories props) ->
     NoDup repos /\ char_free "/" ns = true) ->
  NoDup (map repository_name (init props)).
Proof.
  intros Hk Hi. unfold init. rewrite outer_loop_spec. cbn [List.app].
  rewrite map_map. cbn [make_repository repository_name
                        add_to_resource_policy new_repository].
  exact (separated_names_NoDup "/" _ Hk Hi).
Qed.

End ToolchainFacts.

(** ** The database initializer *)

Module DbInitializerFacts.

Import DbInitializer StrFacts Readings.

Lemma span_unquoted_spec (s : string) :
  let (name, tail) := span_unquoted s in
  s = name ++ tail
  /\ char_free quote name = true
  /\ (tail = "" \/ exists t, tail = String quote t).
Proof.
  induction s as [|c s IH]; cbn [span_unquoted].
  - repeat split. now left.
  - destruct (Ascii.eqb c quote) eqn:E.
    + apply Ascii.eqb_eq in E. subst c. repeat split. right. now exists s.
    + destruct (span_unquoted s) as [name tail].
      destruct IH as (-> & Hf & Ht). cbn [char_free append].
      now rewrite E.
Qed.

Lemma strip_prefix_spec (p s rest : string) :
  strip_prefix p s = Some rest -> s = p ++ rest.
Proof.
  revert s; induction p as [|c p IH]; intros s H; cbn in H.
  - now injection H as ->.
  - destruct s as [|d s]; [discriminate H|].
    destruct (Ascii.eqb c d) eqn:E; [|discriminate H].
    apply Ascii.eqb_eq in E. subst d. cbn. now rewrite (IH s H).
Qed.

(** A match at the head of [s] spells the head of the pattern, the name,
    a double quote. *)
Lemma match_here_spec (s name : string) :
  match_here s = Some name ->
  name <> ""
  /\ char_free quote name = true
  /\ exists t, s = pattern_head ++ name ++ String quote t.
Proof.
  unfold match_here.
  destruct (strip_prefix pattern_head s) as [rest|] eqn:Ep; [|discriminate].
  apply strip_prefix_spec in Ep.
  pose proof (span_unquoted_spec rest) as Hs.
  destruct (span_unquoted rest) as [n tail].
  destruct Hs as (Er & Hf & Ht).
  destruct n as [|c n]; [discriminate|].
  destruct tail as [|d tail]; [discriminate|].
  intros [= <-]. split; [discriminate|]. split; [exact Hf|].
  destruct Ht as [Ht|[t Ht]]; [discriminate Ht|].
  injection Ht as -> ->. exists t. now rewrite Ep, Er.
Qed.

Lemma str_contains_cons (t : string) (c : ascii) (s : string) :
  str_contains t s = true -> str_contains t (String c s) = true.
Proof.
  intros H. cbn [str_contains]. rewrite H. apply orb_true_r.
Qed.

Lemma str_contains_app_l (t x y : string) :
  str_contains t y = true -> str_contains t (x ++ y) = true.
Proof.
  intros H. induction x as [|c x IH]; [exact H|].
  cbn [append]. now apply str_contains_cons.
Qed.

Lemma str_contains_start (t rest : string) :
  str_contains t (t ++ rest) = true.
Proof.
  destruct t as [|c t]; [now destruct rest|].
  cbn [append str_contains].
  change (String c (t ++ rest)) with (String c t ++ rest).
  now rewrite startswith_app.
Qed.

Lemma search_spec (s name : string) :
  search s = Some name ->
  name <> ""
  /\ char_free quote name = true
  /\ str_contains (create_text name) s = true.
Proof.
  induction s as [|c s IH]; cbn [search].
  - destruct (match_here "") eqn:E; [|discriminate].
    intros [= ->]. destruct (match_here_spec _ _ E) as (_ & _ & t & Ht).
    discriminate Ht.
  - destruct (match_here (String c s)) as [n|] eqn:E.
    + intros [= ->]. destruct (match_here_spec _ _ E) as (Hn & Hf & t & Ht).
      split; [exact Hn|]. split; [exact Hf|].
      rewrite Ht. unfold create_text.
      replace (pattern_head ++ name ++ String quote t)
        with ((pattern_head ++ name ++ String quote "") ++ t).
      * apply str_contains_start.
      * now rewrite !append_assoc.
    + intros H. destruct (IH H) as (Hn & Hf & Hc).
      split; [exact Hn|]. split; [exact Hf|]. now apply str_contains_cons.
Qed.

(** The first piece of a split is a prefix of the text. *)
Lemma split_head_prefix (sep s h : string) (t : list string) :
  split_go sep s 0 = h :: t -> exists b, s = h ++ b.
Proof.
  revert h t; induction s as [|c s IH]; intros h t H; cbn [split_go] in H.
  - injection H as <- _. now exists "".
  - destruct (startswith (String c s) sep).
    + injection H as <- _. now exists (String c s).
    + destruct (split_go sep s 0) as [|h' t'] eqn:E; cbn [cons_head] in H.
      * injection H as <- _. now exists s.
      * injection H as <- _. destruct (IH h' t' eq_refl) as [b ->].
        now exists b.
Qed.

(** Every piece of a split is a part of the text. *)
Lemma split_piece_part (sep s : string) :
  forall (skip : nat) (piece : string),
    In piece (split_go sep s skip) -> exists a b, s = a ++ piece ++ b.
Proof.
  induction s as [|c s IH]; intros skip piece H; cbn [split_go] in H.
  - destruct H as [<-|[]]. now exists "", "".
  - destruct skip as [|k].
    + destruct (startswith (String c s) sep).
      * destruct H as [<-|H]; [now exists "", (String c s)|].
        destruct (IH _ _ H) as (a & b & ->). now exists (String c a), b.
      * destruct (split_go sep s 0) as [|h t] eqn:E; cbn [cons_head] in H.
        -- destruct H as [<-|[]]. now exists "", s.
        -- destruct H as [<-|H].
           ++ destruct (split_head_prefix sep s h t E) as [b ->].
              now exists "", b.
           ++ destruct (IH 0 piece) as (a & b & ->).
              { rewrite E. now right. }
              now exists (String c a), b.
    + destruct (IH _ _ H) as (a & b & ->). now exists (String c a), b.
Qed.

Lemma collect_spec (statements : list string) :
  forall (acc : list string) (name : string),
    In name (collect statements acc) ->
    In name acc
    \/ exists statement,
         In statement statements /\ search statement = Some name.
Proof.
  induction statements as [|st rest IH]; intros acc name H;
    cbn [collect] in H.
  - now left.
  - destruct (str_contains "CREATE DATABASE" st).
    + destruct (search st) as [n|] eqn:E.
      * destruct (IH _ _ H) as [Hin|(x & Hx & Hs)].
        -- apply in_app_iff in Hin as [Hin|[<-|[]]]; [now left|].
           right. exists st. split; [now left | exact E].
        -- right. exists x. split; [now right | exact Hs].
      * destruct (IH _ _ H) as [Hin|(x & Hx & Hs)]; [now left|].
        right. exists x. split; [now right | exact Hs].
    + destruct (IH _ _ H) as [Hin|(x & Hx & Hs)]; [now left|].
      right. exists x. split; [now right | exact Hs].
Qed.

(** X22.  Every database name the parser returns is non-empty, contains
    no double quote, and stands in the script between double quotes
    right after [CREATE DATABASE]. *)
Theorem parsed_names_are_quoted_in_script (sql_content : string)
    (databases : list string) (name : string) :
  parse_db_config_sql (Ok sql_content) = Ok databases ->
  In name databases ->
  name <> ""
  /\ char_free quote name = true
  /\ str_contains (create_text name) sql_content = true.
Proof.
  cbn [parse_db_config_sql]. intros [= <-] Hin.
  destruct (collect_spec _ _ _ Hin) as [[]|(st & Hst & Hs)].
  destruct (search_spec _ _ Hs) as (Hn & Hf & Hc).
  split; [exact Hn|]. split; [exact Hf|].
  destruct (split_piece_part _ _ _ _ Hst) as (a & b & ->).
  apply str_contains_app_l. now apply str_contains_app_mono.
Qed.

Lemma collect_length (statements : list string) (acc : list string) :
  List.length (collect statements acc)
  <= List.length acc + List.length statements.
Proof.
  revert acc; induction statements as [|st rest IH]; intros acc;
    cbn [collect List.length].
  - lia.
  - destruct (str_contains "CREATE DATABASE" st).
    + destruct (search st) as [n|].
      * specialize (IH (acc ++ [n])%list).
        rewrite length_app in IH. cbn [List.length] in IH. lia.
      * specialize (IH acc). lia.
    + specialize (IH acc). lia.
Qed.

(** X23.  At most one database is taken from each statement, so a script
    yields no more names than it has pieces between [SELECT] keywords; a
    second [CREATE DATABASE] in the same statement is not seen. *)
Theorem one_name_per_statement (sql_content : string)
    (databases : list string) :
  parse_db_config_sql (Ok sql_content) = Ok databases ->
  List.length databases <= List.length (split "SELECT" sql_content).
Proof.
  cbn [parse_db_config_sql]. intros [= <-].
  apply (collect_length _ []).
Qed.

Lemma parsed_names_are_quoted_in_script_witness :
  parse_db_config_sql (Ok Samples.db_script) = Ok ["app-db"; "audit"]
  /\ str_contains (create_text "audit") Samples.db_script = true.
Proof.
  split; [reflexivity|].
  apply (parsed_names_are_quoted_in_script Samples.db_script
           ["app-db"; "audit"] "audit" eq_refl).
  right; left; reflexivity.
Defined.

Lemma one_name_per_statement_witness :
  List.length ["app-db"; "audit"]
  <= List.length (split "SELECT" Samples.db_script).
Proof.
  exact (one_name_per_statement Samples.db_script ["app-db"; "audit"]
           eq_refl).
Defined.

Section Server.

Variable pg : Type.
Variable select_database : pg -> string -> result bool.
Variable create_database : pg -> string -> result pg.

(** Which databases a server holds. *)
Variable has : pg -> string -> bool.

(** The existence query answers by what the server holds. *)
Hypothesis select_truthful :
  forall server db, select_database server db = Ok (has server db).

(** A creation that succeeds adds that database and nothing else. *)
Hypothesis create_adds :
  forall server db server',
    create_database server db = Ok server' ->
    forall x, has server' x = (String.eqb x db || has server x).

Lemma create_missing_adds (databases : list string) :
  forall server server',
    create_missing pg select_database create_database databases server
    = Ok server' ->
    forall x,
      has server' x = (existsb (String.eqb x) databases || has server x).
Proof.
  induction databases as [|db rest IH]; intros server server' H x;
    cbn [create_missing existsb] in *.
  - now injection H as <-.
  - rewrite select_truthful in H. cbn [bind] in H.
    destruct (has server db) eqn:Hd; cbn [negb] in H.
    + rewrite (IH _ _ H x).
      destruct (String.eqb x db) eqn:E; [|reflexivity].
      apply String.eqb_eq in E. subst x. rewrite Hd.
      now rewrite orb_true_r.
    + destruct (create_database server db) as [s1|e] eqn:Ec;
        cbn [bind] in H; [|discriminate H].
      rewrite (IH _ _ H x), (create_adds _ _ _ Ec x).
      now rewrite orb_assoc, (orb_comm (existsb _ rest)).
Qed.

Lemma create_missing_noop (databases : list string) (server : pg) :
  (forall db, In db databases -> has server db = true) ->
  create_missing pg select_database create_database databases server
  = Ok server.
Proof.
  induction databases as [|db rest IH]; intros Hall; cbn [create_missing].
  - reflexivity.
  - rewrite select_truthful, (Hall db (or_introl eq_refl)). cbn [bind negb].
    apply IH. intros d Hd. apply Hall. now right.
Qed.

End Server.

(** X24.  Over a server whose existence query is truthful and whose
    successful creations add just the named database, a run of the
    handler that answers 200 leaves on the server the databases it had on
    connection together with the names parsed from the script, and no
    other. *)
Theorem handler_creates_exactly_the_missing (pg : Type)
    (environ : dict string) (get_secret : string -> string -> result pyval)
    (connect : pyval -> pyval -> pyval -> result pg)
    (read_script : string -> result string)
    (select_database : pg -> string -> result bool)
    (create_database : pg -> string -> result pg)
    (select_version : pg -> result string)
    (close_connection : pg -> result unit)
    (str_of_exn : exn -> string)
    (has : pg -> string -> bool) (r : response) (final : pg) :
  (forall server db, select_database server db = Ok (has server db)) ->
  (forall server db server',
     create_database server db = Ok server' ->
     forall x, has server' x = (String.eqb x db || has server x)) ->
  handler pg environ get_secret connect read_script select_database
    create_database select_version close_connection str_of_exn
  = Ok (r, Some final) ->
  statusCode r = 200
  /\ exists user password host script connection databases,
       connect user password host = Ok connection
       /\ dict_get environ "DB_SCRIPT_NAME" = Some script
       /\ parse_db_config_sql (read_script script) = Ok databases
       /\ forall x,
            has final x
            = (existsb (String.eqb x) databases || has connection x).
Proof.
  intros Hsel Hcre H. unfold handler in H.
  destruct (getCredentials environ get_secret) as [cred|e]; [|discriminate H].
  cbn [bind] in H. unfold environ_get in H.
  destruct (dict_get environ "DB_SCRIPT_NAME") as [script|] eqn:Es;
    [|discriminate H].
  cbn [bind] in H.
  destruct (try_body pg connect read_script select_database create_database
              select_version close_connection cred script)
    as [[version server]|e] eqn:Et; [|discriminate H].
  injection H as <- <-. split; [reflexivity|].
  unfold try_body in Et.
  destruct (getitem (PDict cred) "username") as [user|]; [|discriminate Et].
  destruct (getitem (PDict cred) "password") as [password|];
    [|discriminate Et].
  destruct (getitem (PDict cred) "host") as [host|]; [|discriminate Et].
  cbn [bind] in Et.
  destruct (connect user password host) as [connection|] eqn:Ec;
    [|discriminate Et].
  cbn [bind] in Et.
  destruct (parse_db_config_sql (read_script script)) as [databases|] eqn:Ep;
    [|discriminate Et].
  cbn [bind] in Et.
  destruct (create_missing pg select_database create_database databases
              connection) as [server'|] eqn:Em; [|discriminate Et].
  cbn [bind] in Et.
  destruct (select_version server') as [v|]; [|discriminate Et].
  cbn [bind] in Et.
  destruct (close_connection server') as [[]|]; [|discriminate Et].
  cbn [bind] in Et. injection Et as <- <-.
  exists user, password, host, script, connection, databases.
  repeat match goal with |- _ /\ _ => split end; try reflexivity;
    try assumption.
  exact (create_missing_adds pg select_database create_database has
           Hsel Hcre databases connection server' Em).
Qed.

Lemma handler_creates_exactly_the_missing_witness :
  exists r,
    Samples.run_handler true = Ok (r, Some ["app-db"; "audit"; "postgres"])
    /\ statusCode r = 200.
Proof.
  eexists. split; [lazy; reflexivity|].
  refine (proj1 (handler_creates_exactly_the_missing (list string)
            Samples.db_environ (fun _ _ => Ok (Samples.db_secret true))
            (fun _ _ _ => Ok ["audit"; "postgres"])
            (fun _ => Ok Samples.db_script)
            (fun server db => Ok (Samples.list_has server db))
            (fun server db => Ok (db :: server))
            (fun _ => Ok "PostgreSQL 17.2") (fun _ => Ok tt)
            (fun _ => "error") Samples.list_has _
            ["app-db"; "audit"; "postgres"] _ _ _)).
  - reflexivity.
  - intros server db server' [= <-] x. reflexivity.
  - lazy. reflexivity.
Defined.

(** X25.  When every database of the list is already on the server, the
    loop issues no [CREATE DATABASE] at all and leaves the server as it
    found it, whatever a creation would have done: a second run of the
    initializer changes nothing. *)
Theorem create_missing_is_idempotent (pg : Type)
    (select_database : pg -> string -> result bool)
    (create_database : pg -> string -> result pg)
    (has : pg -> string -> bool) (databases : list string) (server : pg) :
  (forall s db, select_database s db = Ok (has s db)) ->
  (forall db, In db databases -> has server db = true) ->
  create_missing pg select_database create_database databases server
  = Ok server.
Proof.
  intros Hsel Hall.
  exact (create_missing_noop pg select_database create_database has Hsel
           databases server Hall).
Qed.

Lemma create_missing_is_idempotent_witness :
  create_missing (list string)
    (fun server db => Ok (Samples.list_has server db))
    (fun _ _ => Raise RuntimeError)
    ["app-db"; "audit"] ["app-db"; "audit"; "postgres"]
  = Ok ["app-db"; "audit"; "postgres"].
Proof.
  apply (create_missing_is_idempotent (list string) _ _ Samples.list_has).
  - reflexivity.
  - intros db [<-|[<-|[]]]; reflexivity.
Defined.

(** X26.  The credentials are read before the [try] block, and all four
    fields of the secret are required: a secret that lacks [dbname], a
    field the handler never uses afterwards, makes the handler raise
    [KeyError] instead of answering with a response. *)
Theorem secret_without_dbname_raises (pg : Type)
    (environ : dict string) (get_secret : string -> string -> result pyval)
    (connect : pyval -> pyval -> pyval -> result pg)
    (read_script : string -> result string)
    (select_database : pg -> string -> result bool)
    (create_database : pg -> string -> result pg)
    (select_version : pg -> result string)
    (close_connection : pg -> result unit)
    (str_of_exn : exn -> string)
    (region name : string) (secret : dict pyval) (u p h : pyval) :
  dict_get environ "REGION" = Some region ->
  dict_get environ "SECRETS_NAME" = Some name ->
  get_secret region name = Ok (PDict secret) ->
  dict_get secret "username" = Some u ->
  dict_get secret "password" = Some p ->
  dict_get secret "host" = Some h ->
  dict_get secret "dbname" = None ->
  handler pg environ get_secret connect read_script select_database
    create_database select_version close_connection str_of_exn
  = Raise (KeyError "dbname").
Proof.
  intros Hr Hn Hs Hu Hp Hh Hd.
  unfold handler, getCredentials, environ_get.
  rewrite Hr, Hn. cbn [bind]. rewrite Hs. cbn [bind getitem].
  now rewrite Hu, Hp, Hh, Hd.
Qed.

Lemma secret_without_dbname_raises_witness :
  Samples.run_handler false = Raise (KeyError "dbname").
Proof.
  exact (secret_without_dbname_raises (list string) Samples.db_environ
           (fun _ _ => Ok (Samples.db_secret false)) _ _ _ _ _ _ _
           "us-east-1" "/acme/dev/rds/app" _ _ _ _
           eq_refl eq_refl eq_refl eq_refl eq_refl eq_refl eq_refl).
Defined.

End DbInitializerFacts.

(** ** Toolchain samples *)

Module ToolchainWitnesses.

Import Toolchain ToolchainFacts Readings.

Lemma construct_ids_unique_witness :
  NoDup (map construct_id (init Samples.toolchain_props)).
Proof.
  apply construct_ids_unique.
  - repeat constructor; cbn; intuition discriminate.
  - intros ns repos [[= <- <-]|[[= <- <-]|[]]]; split; try reflexivity;
      repeat constructor; cbn; intuition discriminate.
Defined.

Lemma repository_names_unique_witness :
  NoDup (map repository_name (init Samples.toolchain_props)).
Proof.
  apply repository_names_unique.
  - repeat constructor; cbn; intuition discriminate.
  - intros ns repos [[= <- <-]|[[= <- <-]|[]]]; split; try reflexivity;
      repeat constructor; cbn; intuition discriminate.
Defined.

End ToolchainWitnesses.

(** ** The toolchain stack over the framework *)

Module ToolchainStackFacts.

Import Toolchain ToolchainFacts.

Section Accepted.

Variable ecr_Repository :
  list repository -> string -> string -> result repository.

(** A call that returns gives the repository that was asked for. *)
Hypothesis returns_what_was_asked :
  forall scope id name r,
    ecr_Repository scope id name = Ok r -> r = new_repository id name.

(** A call with an id the scope already holds does not return. *)
Hypothesis refuses_repeated_id :
  forall scope id name r,
    ecr_Repository scope id name = Ok r -> ~ In id (map construct_id scope).

Lemma inner_loop_in_spec (props : ToolchainStackProps) (namespace : string)
    (repositories : list string) :
  forall stack out,
    inner_loop_in ecr_Repository props namespace repositories stack = Ok out ->
    out = inner_loop props namespace repositories stack
    /\ (NoDup (map construct_id stack) -> NoDup (map construct_id out)).
Proof.
  induction repositories as [|repo rest IH]; intros stack out H;
    cbn [inner_loop_in inner_loop] in *.
  - injection H as <-. now split.
  - destruct (ecr_Repository stack (namespace ++ "-" ++ repo)
                (namespace ++ "/" ++ repo)) as [created|e] eqn:Ec;
      cbn [bind] in H; [|discriminate H].
    pose proof (refuses_repeated_id _ _ _ _ Ec) as Hfresh.
    apply returns_what_was_asked in Ec. subst created.
    destruct (IH _ _ H) as [-> Hn]. split; [reflexivity|].
    intros Hs. apply Hn. rewrite map_app. cbn [map construct_id
      add_to_resource_policy new_repository].
    apply NoDup_app; [exact Hs | repeat constructor; intros [] |].
    intros x Hx [<-|[]]. now apply Hfresh.
Qed.

Lemma outer_loop_in_spec (props : ToolchainStackProps)
    (items : dict (list string)) :
  forall stack out,
    outer_loop_in ecr_Repository props items stack = Ok out ->
    out = outer_loop props items stack
    /\ (NoDup (map construct_id stack) -> NoDup (map construct_id out)).
Proof.
  induction items as [|[ns repos] rest IH]; intros stack out H;
    cbn [outer_loop_in outer_loop] in *.
  - injection H as <-. now split.
  - destruct (inner_loop_in ecr_Repository props ns repos stack)
      as [stack'|e] eqn:Ei; cbn [bind] in H; [|discriminate H].
    destruct (inner_loop_in_spec _ _ _ _ _ Ei) as [-> Hn1].
    destruct (IH _ _ H) as [-> Hn2]. split; [reflexivity|].
    intros Hs. apply Hn2, Hn1, Hs.
Qed.

End Accepted.

(** X19.  Over a framework whose repository constructor, when it
    returns, returns the repository asked for, and does not return when
    the scope already holds the id: a toolchain stack that is built holds
    one repository per configured (namespace, repository) entry, in
    configuration order, named [namespace/repository], with pairwise
    distinct construct ids; each one scans images on push and carries
    exactly one policy statement, the organization pull. *)
Theorem built_toolchain_repositories
    (ecr_Repository : list repository -> string -> string -> result repository)
    (props : ToolchainStackProps) (repos : list repository) :
  (forall scope id name r,
     ecr_Repository scope id name = Ok r -> r = new_repository id name) ->
  (forall scope id name r,
     ecr_Repository scope id name = Ok r ->
     ~ In id (map construct_id scope)) ->
  ToolchainStack ecr_Repository props = Ok repos ->
  map repository_name repos
  = map (fun e => fst e ++ "/" ++ snd e) (entries (ecr_repositories props))
  /\ map construct_id repos
     = map (fun e => fst e ++ "-" ++ snd e) (entries (ecr_repositories props))
  /\ NoDup (map construct_id repos)
  /\ forall r, In r repos ->
       image_scan_on_push r = true
       /\ resource_policy r = [organization_pull (organization_id props)].
Proof.
  intros Hret Hdup H. unfold ToolchainStack in H.
  destruct (outer_loop_in_spec ecr_Repository Hret Hdup props _ _ _ H)
    as [-> Hn].
  fold (init props).
  destruct (init_repositories props) as [Hnames Hall].
  split; [exact Hnames|]. split.
  - unfold init. rewrite outer_loop_spec. cbn [List.app].
    rewrite map_map. reflexivity.
  - split; [apply Hn; constructor | exact Hall].
Qed.

Lemma built_toolchain_repositories_witness :
  ToolchainStack Samples.checking_Repository Samples.toolchain_props
  = Ok (init Samples.toolchain_props)
  /\ map repository_name (init Samples.toolchain_props)
     = ["platform/api"; "platform/web"; "tools/runner"]
  /\ NoDup (map construct_id (init Samples.toolchain_props)).
Proof.
  assert (E : ToolchainStack Samples.checking_Repository
                Samples.toolchain_props
              = Ok (init Samples.toolchain_props)) by (lazy; reflexivity).
  split; [exact E|].
  destruct (built_toolchain_repositories Samples.checking_Repository
              Samples.toolchain_props (init Samples.toolchain_props))
    as (Hnames & _ & Hnd & _).
  - unfold Samples.checking_Repository. intros scope id name r.
    destruct (existsb _ _); [discriminate | now intros [= <-]].
  - unfold Samples.checking_Repository. intros scope id name r.
    destruct (existsb _ _) eqn:Ex; [discriminate|]. intros _ Hin.
    assert (X : existsb (String.eqb id) (map construct_id scope) = true).
    { apply existsb_exists. exists id. split; [exact Hin|].
      apply String.eqb_refl. }
    congruence.
  - exact E.
  - split; [exact Hnames | exact Hnd].
Defined.

(** A repeated construct id stops the constructor: the namespaces [a-b]
    and [a] with the repositories [c] and [b-c] both ask for [a-b-c]. *)
Lemma repeated_construct_id_is_refused :
  ToolchainStack Samples.checking_Repository
    {| ecr_repositories := [("a-b", ["c"]); ("a", ["b-c"])];
       organization_id := "o-example"; project_tags := [] |}
  = Raise RuntimeError.
Proof. lazy. reflexivity. Qed.

End ToolchainStackFacts.

(** ** The two corrected claims, as stated *)

Module Refuted.

Import Readings.


(** C8 as stated fails.  With tenant [acme], no environment and the
    segment [/eks/oidc-id], the resolved path is [/acme//eks/oidc-id]: the
    slash the segment begins with follows the slash of the join. *)
Lemma double_slash_counterexample :
  PathBuilder.get_ssm_path Samples.acme_no_env ["eks"; "oidc-id"] false
  = Ok "/acme//eks/oidc-id"
  /\ ~ no_double_slash_as_stated Samples.acme_no_env ["eks"; "oidc-id"].
Proof.
  split; [reflexivity|].
  intros H.
  specialize (H (or_intror eq_refl) "/acme//eks/oidc-id" eq_refl).
  discriminate H.
Qed.

End Refuted.
